(** * The dygraphs tooltip plugin (src/plugins/tooltip.js)

    A shallow embedding of the tooltip plugin: the HTML escaper, the
    dash-swatch renderer [generateTooltipDashHTML], the fragment generator
    [generateTooltipHTML] and the event handlers [select], [deselect],
    [predraw], [didDrawChart] and [destroy], followed by the properties the
    specification states about them.

    Numbers.  A JavaScript number is modelled by [num]: an exact rational,
    or one of the three special values that a division can produce
    ([Infinity], [-Infinity], [NaN]).  Arithmetic is exact: binary64
    rounding, overflow and the sign of zero are left out of the model, so a
    property the specification states "within rounding" is stated exactly.
    Every operation returns its rational in lowest terms, so that two equal
    numbers are the same term.  Where a property depends on the arithmetic
    being exact (a floor at a boundary, a sum that cancels, a value that
    under- or overflows in binary64) its statement says so.

    Strings.  A string is a [string] of any length: the limit that an engine
    puts on the length of a string is left out.  A loop that keeps appending
    to a string and that the embedding finds still running whatever the fuel
    is ended, in an engine, by the [RangeError] of the append that exceeds
    the limit; in both readings the call returns no value. *)

From Stdlib Require Import List String Ascii Bool Arith ZArith QArith Qround Lia Lqa.
From Stdlib Require Import Numbers.DecimalString.
Import ListNotations.

Local Open Scope list_scope.
Local Open Scope nat_scope.
Local Open Scope string_scope.

(* ================================================================== *)
(** ** JavaScript numbers *)

Inductive num : Type :=
| Fin (q : Q)
| PInf
| NInf
| NaN.

Definition Qzero (q : Q) : bool := (Qnum q =? 0)%Z.
Definition Qpos (q : Q) : bool := (0 <? Qnum q)%Z.

Definition nneg (x : num) : num :=
  match x with
  | Fin q => Fin (Qred (- q))
  | PInf => NInf
  | NInf => PInf
  | NaN => NaN
  end.

(** [x + y] *)
Definition nadd (x y : num) : num :=
  match x, y with
  | NaN, _ | _, NaN => NaN
  | Fin a, Fin b => Fin (Qred (a + b))
  | PInf, NInf | NInf, PInf => NaN
  | PInf, _ | _, PInf => PInf
  | NInf, _ | _, NInf => NInf
  end.

(** [x - y] *)
Definition nsub (x y : num) : num :=
  match x, y with
  | NaN, _ | _, NaN => NaN
  | Fin a, Fin b => Fin (Qred (a - b))
  | PInf, PInf | NInf, NInf => NaN
  | PInf, _ | _, NInf => PInf
  | NInf, _ | _, PInf => NInf
  end.

(** [x * y] *)
Definition nmul (x y : num) : num :=
  match x, y with
  | NaN, _ | _, NaN => NaN
  | Fin a, Fin b => Fin (Qred (a * b))
  | Fin a, PInf | PInf, Fin a =>
      if Qzero a then NaN else if Qpos a then PInf else NInf
  | Fin a, NInf | NInf, Fin a =>
      if Qzero a then NaN else if Qpos a then NInf else PInf
  | PInf, PInf | NInf, NInf => PInf
  | PInf, NInf | NInf, PInf => NInf
  end.

(** [x / y]; a zero divisor is the positive zero. *)
Definition ndiv (x y : num) : num :=
  match x, y with
  | NaN, _ | _, NaN => NaN
  | Fin a, Fin b =>
      if Qzero b then
        if Qzero a then NaN else if Qpos a then PInf else NInf
      else Fin (Qred (a / b))
  | Fin _, (PInf | NInf) => Fin 0
  | (PInf | NInf), (PInf | NInf) => NaN
  | PInf, Fin b => if Qzero b || Qpos b then PInf else NInf
  | NInf, Fin b => if Qzero b || Qpos b then NInf else PInf
  end.

(** [Math.floor(x)] *)
Definition nfloor (x : num) : num :=
  match x with
  | Fin q => Fin (inject_Z (Qfloor q))
  | _ => x
  end.

(** [x < y]; every comparison with [NaN] is false. *)
Definition nlt (x y : num) : bool :=
  match x, y with
  | NaN, _ | _, NaN => false
  | Fin a, Fin b => negb (Qle_bool b a)
  | PInf, _ | _, NInf => false
  | NInf, _ | _, PInf => true
  end.

(** [x > y] *)
Definition ngt (x y : num) : bool := nlt y x.

(** [x === 0] *)
Definition nzero (x : num) : bool :=
  match x with
  | Fin q => Qzero q
  | _ => false
  end.

Definition ofZ (z : Z) : num := Fin (inject_Z z).
Definition ofNat (n : nat) : num := ofZ (Z.of_nat n).

(** Reading [a[i]] in a numeric array: outside the array the value is
    [undefined], which every arithmetic operation turns into [NaN]. *)
Definition at_ (a : list num) (i : nat) : num := nth i a NaN.

(* ================================================================== *)
(** ** Outcomes of a call

    A call returns a value, throws (a [TypeError] on [undefined] or [null])
    or is still running when the fuel of the embedding is used up. *)

Inductive outcome (A : Type) : Type :=
| Done (a : A)
| Raise
| OutOfFuel.

Arguments Done {A} a.
Arguments Raise {A}.
Arguments OutOfFuel {A}.

Definition obind {A B : Type} (m : outcome A) (f : A -> outcome B) : outcome B :=
  match m with
  | Done a => f a
  | Raise => Raise
  | OutOfFuel => OutOfFuel
  end.

Definition omap {A B : Type} (f : A -> B) (m : outcome A) : outcome B :=
  obind m (fun a => Done (f a)).

Notation "x <- m ;; k" := (obind m (fun x => k))
  (at level 61, m at next level, right associativity).

(* ================================================================== *)
(** ** Strings and [escapeHTML] *)

(** The double quote character and the one-character string that holds it. *)
Definition dquote : ascii := "034"%char.
Definition DQ : string := String dquote "".

(** [str.replace(/c/g, r)] for a one-character pattern [c]. *)
Fixpoint replaceAll (c : ascii) (r : string) (str : string) : string :=
  match str with
  | EmptyString => EmptyString
  | String d rest =>
      if Ascii.eqb d c then r ++ replaceAll c r rest
      else String d (replaceAll c r rest)
  end.

Definition escapeHTML (str : string) : string :=
  replaceAll ">" "&gt;"
    (replaceAll "<" "&lt;"
       (replaceAll dquote "&quot;"
          (replaceAll "&" "&amp;" str))).

(** A concrete [Number::toString] on the terminating decimals: sign,
    integer part and, when there is one, the fraction digit by digit.  The
    renderer takes the conversion as a parameter; this instance serves the
    worked examples. *)
Definition digitsOfN (n : N) : string := NilZero.string_of_uint (N.to_uint n).

Fixpoint fractionDigits (fuel : nat) (r d : Z) : string :=
  match fuel with
  | O => ""
  | S fuel' =>
      if (r =? 0)%Z then ""
      else digitsOfN (Z.to_N (10 * r / d)) ++ fractionDigits fuel' ((10 * r) mod d)%Z d
  end.

Definition decimalOfQ (q : Q) : string :=
  let n := Z.abs (Qnum q) in
  let d := Zpos (Qden q) in
  let frac := fractionDigits 17 (n mod d)%Z d in
  (if (Qnum q <? 0)%Z then "-" else "") ++ digitsOfN (Z.to_N (n / d)) ++
  (if String.eqb frac "" then "" else "." ++ frac).

Definition decimalString (x : num) : string :=
  match x with
  | Fin q => decimalOfQ q
  | PInf => "Infinity"
  | NInf => "-Infinity"
  | NaN => "NaN"
  end.

(* ================================================================== *)
(** ** The dash renderer: [generateTooltipDashHTML] *)

(** One emitted inline block: its [margin-right] and [padding-left], in em. *)
Record block : Type := Block { marginRight : num; paddingLeft : num }.

(** The values the renderer has computed when it starts to draw: [loop],
    [normalizedPattern] and [segmentLoop]. *)
Record plan : Type := Plan {
  loop : num;
  normalizedPattern : list num;
  segmentLoop : nat
}.

(** [for (i = 0; i <= strokePattern.length; i++)
       strokePixelLength += strokePattern[i % strokePattern.length];] *)
Definition strokePixelLengthOf (strokePattern : list num) : num :=
  fold_left
    (fun strokePixelLength i =>
       nadd strokePixelLength (at_ strokePattern (i mod List.length strokePattern)))
    (seq 0 (S (List.length strokePattern)))
    (Fin 0).

(** [Math.floor(oneEmWidth / (strokePixelLength - strokePattern[0]))] *)
Definition loopCount (strokePattern : list num) (oneEmWidth : num) : num :=
  nfloor (ndiv oneEmWidth
            (nsub (strokePixelLengthOf strokePattern) (at_ strokePattern 0))).

(** The branch on [loop > 1]. *)
Definition dashPlan (strokePattern : list num) (oneEmWidth : num) : plan :=
  let strokePixelLength := strokePixelLengthOf strokePattern in
  let loop := loopCount strokePattern oneEmWidth in
  if ngt loop (Fin 1) then
    let normalizedPattern := map (fun s => ndiv s oneEmWidth) strokePattern in
    Plan loop normalizedPattern (List.length normalizedPattern)
  else
    let normalizedPattern := map (fun s => ndiv s strokePixelLength) strokePattern in
    Plan (Fin 1) normalizedPattern (List.length normalizedPattern + 1).

Section Drawing.

(** The drawing loops, for any accumulator: the source appends markup to
    the string [dash]; the same loops run on a list of blocks give the
    sequence of blocks the markup describes. *)
Context {A : Type} (emit : A -> block -> A).
Variable strokePattern : list num.
Variable pl : plan.

(** The body of the inner loop at index [i]. *)
Definition segment (i : nat) : block :=
  let padding := at_ (normalizedPattern pl) (i mod List.length (normalizedPattern pl)) in
  let margin :=
    if (i <? List.length strokePattern)%nat
    then at_ (normalizedPattern pl) ((i + 1) mod List.length (normalizedPattern pl))
    else Fin 0 in
  Block margin padding.

(** [for (i = 0; i < segmentLoop; i += 2)], started at [i]; [n] bounds the
    number of rounds, and [segmentLoop] rounds always suffice. *)
Fixpoint drawFrom (n i : nat) (dash : A) : A :=
  match n with
  | O => dash
  | S n' =>
      if (i <? segmentLoop pl)%nat
      then drawFrom n' (i + 2) (emit dash (segment i))
      else dash
  end.

Definition drawPattern (dash : A) : A := drawFrom (segmentLoop pl) 0 dash.

(** [for (j = 0; j < loop; j++)], started at [j]. *)
Fixpoint repeatPattern (fuel j : nat) (dash : A) : outcome A :=
  if nlt (ofNat j) (loop pl) then
    match fuel with
    | O => OutOfFuel
    | S fuel' => repeatPattern fuel' (S j) (drawPattern dash)
    end
  else Done dash.

End Drawing.

Definition renderDash {A : Type} (solid empty : A) (emit : A -> block -> A)
    (fuel : nat) (strokePattern : option (list num)) (oneEmWidth : num) : outcome A :=
  match strokePattern with
  | None => Done solid
  | Some pattern =>
      if (List.length pattern <=? 1)%nat then Done solid
      else repeatPattern emit pattern (dashPlan pattern oneEmWidth) fuel 0 empty
  end.

(** The blocks of a swatch, in the order the loops emit them; the solid
    swatch is one block of one em. *)
Definition snoc (dash : list block) (b : block) : list block := (dash ++ [b])%list.

Definition dashBlocks : nat -> option (list num) -> num -> outcome (list block) :=
  renderDash [Block (Fin 0) (Fin 1)] [] snoc.

(** Total width of a sequence of blocks, in em. *)
Definition totalEm (blocks : list block) : num :=
  fold_left (fun t b => nadd t (nadd (paddingLeft b) (marginRight b))) blocks (Fin 0).

Section Markup.

Variable numToString : num -> string.

Definition solidHTML (color : string) : string :=
  "<div style=" ++ DQ ++ "display: inline-block; position: relative; " ++
  "bottom: .5ex; padding-left: 1em; height: 1px; " ++
  "border-bottom: 2px solid " ++ color ++ ";" ++ DQ ++ "></div>".

Definition blockHTML (color : string) (b : block) : string :=
  "<div style=" ++ DQ ++ "display: inline-block; position: relative; " ++
  "bottom: .5ex; margin-right: " ++ numToString (marginRight b) ++ "em; padding-left: " ++
  numToString (paddingLeft b) ++ "em; height: 1px; border-bottom: 2px solid " ++ color ++
  ";" ++ DQ ++ "></div>".

Definition generateTooltipDashHTML (fuel : nat) (strokePattern : option (list num))
    (color : string) (oneEmWidth : num) : outcome string :=
  renderDash (solidHTML color) "" (fun dash b => dash ++ blockHTML color b)
    fuel strokePattern oneEmWidth.

End Markup.

(* ================================================================== *)
(** ** The host: what the plugin reads from the chart *)

(** [g.getPropertiesForSeries(name)] *)
Record seriesProperties : Type := {
  visible : bool;
  color : string;
  axis : nat
}.

(** A selected point; [px] and [py] are its fields [x] and [y]. *)
Record point : Type := {
  px : num;
  py : num;
  name : string;
  yval : num;
  canvasy : num
}.

(** A value formatter, called as
    [f.call(g, value, optionsView, seriesName, g, row, col)]; [labels[0]] of
    a chart without labels and the [null] row are [None]. *)
Definition formatter : Type := num -> option string -> option nat -> Z -> string.

(** An options view, [g.optionsViewForAxis_(axis)]; the plugin reads its
    ['valueFormatter'] only. *)
Record optionsView : Type := { valueFormatter : formatter }.

(** Axis names: ['x'], and ['y'], ['y2'], ['y3'], ... by index. *)
Inductive axisName : Type :=
| AxisX
| AxisY (i : nat).

(** [g.plotter_.area] *)
Record rect : Type := { area_x : num; area_y : num; area_w : num; area_h : num }.

Record Dygraph : Type := {
  (** [getOption('showLabelsOnHighlight') === true] *)
  showLabelsOnHighlight : bool;
  getLabels : list string;
  getPropertiesForSeries : string -> seriesProperties;
  (** [getOption("strokePattern", label)]; [null] is [None] *)
  strokePatternOption : string -> option (list num);
  optionsViewForAxis_ : axisName -> optionsView;
  numAxes : nat;
  (** truthiness of [getOption("labelsShowZeroValues")] *)
  labelsShowZeroValues : bool;
  getHighlightSeries : option string;
  (** [getOption('tooltip')] *)
  tooltipOption : string;
  tooltipDivWidth : num;
  (** [getOptionForAxis('axisLabelWidth', 'y')] *)
  axisLabelWidth : num;
  area : rect
}.

(** [labels.indexOf(name)] *)
Fixpoint indexOfFrom (i : Z) (labels : list string) (n : string) : Z :=
  match labels with
  | [] => (-1)%Z
  | l :: rest => if String.eqb l n then i else indexOfFrom (i + 1)%Z rest n
  end.

Definition indexOf (labels : list string) (n : string) : Z := indexOfFrom 0%Z labels n.

(** A [for] loop over the elements of an array whose body may throw. *)
Fixpoint forEach {A B : Type} (body : B -> A -> outcome B) (l : list A) (acc : B) : outcome B :=
  match l with
  | [] => Done acc
  | a :: rest => acc' <- body acc a ;; forEach body rest acc'
  end.

(* ================================================================== *)
(** ** The fragment generator: [generateTooltipHTML]

    The string [html] is kept as the list of the pieces the source
    concatenates, each with where it comes from: a literal of the plugin
    (or a swatch it rendered), a series name, a string a formatter returned,
    or a series colour.  The fragment is the concatenation of the pieces. *)

Inductive origin : Type := Markup | SeriesName | Formatted | SeriesColor.

Definition piece : Type := (origin * string)%type.
Definition fragment : Type := list piece.

Definition flatten (html : fragment) : string := String.concat "" (map snd html).

(** [html !== ''] *)
Definition nonEmpty (html : fragment) : bool := negb (String.eqb (flatten html) "").

(** [pt.name == highlightSeries] *)
Definition isHighlighted (n : string) (highlightSeries : option string) : bool :=
  match highlightSeries with
  | Some h => String.eqb n h
  | None => false
  end.

Section Generator.

Variable numToString : num -> string.
(** [Dygraph.isOK], a function of the host library. *)
Variable isOK : num -> bool.

(** Body of the loop over [labels] when nothing is selected. *)
Definition defaultLine (fuel : nat) (g : Dygraph) (oneEmWidth : num)
    (html : fragment) (label : string) : outcome fragment :=
  let series := getPropertiesForSeries g label in
  if negb (visible series) then Done html
  else
    let html := if nonEmpty html then (html ++ [(Markup, "<br/>")])%list else html in
    let strokePattern := strokePatternOption g label in
    dash <- generateTooltipDashHTML numToString fuel strokePattern (color series) oneEmWidth ;;
    Done (html ++
          [(Markup, "<span style='font-weight: bold; color: ");
           (SeriesColor, color series);
           (Markup, ";'>");
           (Markup, dash);
           (Markup, (" <span class=" ++ DQ ++ "label" ++ DQ ++ ">")%string);
           (SeriesName, escapeHTML label);
           (Markup, "</span></span>")])%list.

(** What one selected point appends to [html] once it has passed both
    [continue] guards. *)
Definition legendLine (g : Dygraph) (yOptView : optionsView) (row : option nat)
    (pt : point) : fragment :=
  let series := getPropertiesForSeries g (name pt) in
  let fmtFunc := valueFormatter yOptView in
  let yval := fmtFunc (yval pt) (Some (name pt)) row (indexOf (getLabels g) (name pt)) in
  let cls := if isHighlighted (name pt) (getHighlightSeries g)
             then " class='highlight'" else "" in
  [(Markup, "<br/>");
   (Markup, "<span" ++ cls ++ ">" ++ " <b><span style='color: ");
   (SeriesColor, color series);
   (Markup, ";'>");
   (SeriesName, escapeHTML (name pt));
   (Markup, "</span></b>:&#160;");
   (Formatted, yval);
   (Markup, "</span>")].

(** [yOptViews[series.axis - 1]]; [undefined] is [None]. *)
Definition yOptViewOf (yOptViews : list optionsView) (series : seriesProperties)
    : option optionsView :=
  match axis series with
  | O => None
  | S i => nth_error yOptViews i
  end.

(** Body of the loop over [sel_points]. *)
Definition selectedLine (g : Dygraph) (yOptViews : list optionsView) (row : option nat)
    (html : fragment) (pt : point) : outcome fragment :=
  let showZeros := labelsShowZeroValues g in
  if nzero (yval pt) && negb showZeros then Done html
  else if negb (isOK (canvasy pt)) then Done html
  else
    match yOptViewOf yOptViews (getPropertiesForSeries g (name pt)) with
    | None => Raise
    | Some yOptView => Done (html ++ legendLine g yOptView row pt)%list
    end.

(** [yOptViews], filled by the loop over [i < num_axes]. *)
Definition yOptViewsOf (g : Dygraph) : list optionsView :=
  map (fun i => optionsViewForAxis_ g (AxisY i)) (seq 0 (numAxes g)).

(** [html] when the loop over [sel_points] starts: the formatted x value,
    followed by a colon unless it is empty. *)
Definition selectionHeader (g : Dygraph) (x : num) (row : option nat) : fragment :=
  let xOptView := optionsViewForAxis_ g AxisX in
  let xvf := valueFormatter xOptView in
  let html := [(Formatted, xvf x (hd_error (getLabels g)) row 0%Z)] in
  if nonEmpty html then (html ++ [(Markup, ":")])%list else html.

Definition generateTooltipFragment (fuel : nat) (g : Dygraph) (x : option num)
    (sel_points : option (list point)) (oneEmWidth : num) (row : option nat)
    : outcome fragment :=
  if negb (showLabelsOnHighlight g) then Done []
  else
    let labels := getLabels g in
    match x with
    | None => forEach (defaultLine fuel g oneEmWidth) (tl labels) []
    | Some x =>
        let html := selectionHeader g x row in
        let yOptViews := yOptViewsOf g in
        match sel_points with
        | None => Raise
        | Some sel_points => forEach (selectedLine g yOptViews row) sel_points html
        end
    end.

Definition generateTooltipHTML (fuel : nat) (g : Dygraph) (x : option num)
    (sel_points : option (list point)) (oneEmWidth : num) (row : option nat)
    : outcome string :=
  omap flatten (generateTooltipFragment fuel g x sel_points oneEmWidth row).

End Generator.

(* ================================================================== *)
(** ** The plugin object and its handlers *)

(** The inline style properties the plugin writes. *)
Record style : Type := {
  display : string;
  left : string;
  top : string;
  width : string
}.

(** The tooltip div, as far as the plugin touches it; [inGraphDiv] holds
    once [graphDiv.appendChild] was called on it. *)
Record element : Type := {
  innerHTML : string;
  elementStyle : style;
  inGraphDiv : bool
}.

(** The fields of [this]; a [null] div is [None]. *)
Record tooltip : Type := {
  tooltip_div_ : option element;
  is_generated_div_ : bool;
  one_em_width_ : num
}.

(** An event [e], with the two fields of [window] that [select] reads. *)
Record event : Type := {
  dygraph : Dygraph;
  selectedX : option num;
  selectedPoints : option (list point);
  selectedRow : option nat;
  scrollX : num;
  innerWidth : num
}.

(** A handler runs on [this]: it ends with an outcome and leaves the plugin
    object as it is at that moment, also when it throws. *)
Definition handler (A : Type) : Type := tooltip -> outcome A * tooltip.

Definition hret {A : Type} (a : A) : handler A := fun this => (Done a, this).

Definition hbind {A B : Type} (m : handler A) (f : A -> handler B) : handler B :=
  fun this =>
    match m this with
    | (Done a, this') => f a this'
    | (Raise, this') => (Raise, this')
    | (OutOfFuel, this') => (OutOfFuel, this')
    end.

Definition hlift {A : Type} (m : outcome A) : handler A := fun this => (m, this).

Definition getThis : handler tooltip := fun this => (Done this, this).

Notation "x <~ m ;; k" := (hbind m (fun x => k))
  (at level 61, m at next level, right associativity).
Notation "m ;;; k" := (hbind m (fun _ => k))
  (at level 61, right associativity).

(** [this.tooltip_div_.<property> = ...]; throws when the div is [null]. *)
Definition updateDiv (f : element -> element) : handler unit :=
  fun this =>
    match tooltip_div_ this with
    | None => (Raise, this)
    | Some div =>
        (Done tt, {| tooltip_div_ := Some (f div);
                     is_generated_div_ := is_generated_div_ this;
                     one_em_width_ := one_em_width_ this |})
    end.

Definition updateStyle (f : style -> style) : handler unit :=
  updateDiv (fun div => {| innerHTML := innerHTML div;
                           elementStyle := f (elementStyle div);
                           inGraphDiv := inGraphDiv div |}).

Definition setDisplay (v : string) : handler unit :=
  updateStyle (fun s => {| display := v; left := left s; top := top s; width := width s |}).
Definition setLeft (v : string) : handler unit :=
  updateStyle (fun s => {| display := display s; left := v; top := top s; width := width s |}).
Definition setTop (v : string) : handler unit :=
  updateStyle (fun s => {| display := display s; left := left s; top := v; width := width s |}).
Definition setWidth (v : string) : handler unit :=
  updateStyle (fun s => {| display := display s; left := left s; top := top s; width := v |}).

Definition setInnerHTML (html : string) : handler unit :=
  updateDiv (fun div => {| innerHTML := html;
                           elementStyle := elementStyle div;
                           inGraphDiv := inGraphDiv div |}).

(** [e.dygraph.graphDiv.appendChild(this.tooltip_div_)] *)
Definition appendToGraphDiv : handler unit :=
  updateDiv (fun div => {| innerHTML := innerHTML div;
                           elementStyle := elementStyle div;
                           inGraphDiv := true |}).

(** [this.one_em_width_ = v] *)
Definition setOneEmWidth (v : num) : handler unit :=
  fun this => (Done tt, {| tooltip_div_ := tooltip_div_ this;
                           is_generated_div_ := is_generated_div_ this;
                           one_em_width_ := v |}).

Section Handlers.

Variable numToString : num -> string.
Variable isOK : num -> bool.
(** The layout engine: [offsetWidth] of a span of left padding [1em]
    appended to the div. *)
Variable offsetWidth : element -> num.

(** The span is appended, measured and removed; the div ends as it was. *)
Definition calculateEmWidthInDiv (div : option element) : outcome num :=
  match div with
  | None => Raise
  | Some div => Done (offsetWidth div)
  end.

(** The ['follow'] branch of [select]. *)
Definition follow (e : event) : handler unit :=
  let g := dygraph e in
  let area := area g in
  let tooltipDivWidth := tooltipDivWidth g in
  let yAxisLabelWidth := axisLabelWidth g in
  match selectedPoints e with
  | Some (p0 :: _) =>
      let leftTooltip := nadd (nmul (px p0) (area_w area)) (ofZ 20) in
      let topTooltip := nsub (nmul (py p0) (area_h area)) (ofZ 20) in
      let leftTooltip :=
        if ngt (nadd (nadd leftTooltip tooltipDivWidth) (ofZ 1))
               (nadd (scrollX e) (innerWidth e))
        then nsub (nsub (nsub leftTooltip (nmul (ofZ 2) (ofZ 20))) tooltipDivWidth)
                  (nsub yAxisLabelWidth (area_x area))
        else leftTooltip in
      appendToGraphDiv ;;;
      setLeft (numToString (nadd yAxisLabelWidth leftTooltip) ++ "px") ;;;
      setTop (numToString topTooltip ++ "px")
  | _ => hlift Raise
  end.

Definition select (fuel : nat) (e : event) : handler unit :=
  let xValue := selectedX e in
  let points := selectedPoints e in
  let row := selectedRow e in
  let tooltipMode := tooltipOption (dygraph e) in
  if String.eqb tooltipMode "never" then setDisplay "none"
  else
    (if String.eqb tooltipMode "follow" then follow e else hret tt) ;;;
    this <~ getThis ;;
    html <~ hlift (generateTooltipHTML numToString isOK fuel (dygraph e) xValue points
                     (one_em_width_ this) row) ;;
    setInnerHTML html ;;;
    setDisplay "".

Definition deselect (fuel : nat) (e : event) : handler unit :=
  this <~ getThis ;;
  oneEmWidth <~ hlift (calculateEmWidthInDiv (tooltip_div_ this)) ;;
  setOneEmWidth oneEmWidth ;;;
  html <~ hlift (generateTooltipHTML numToString isOK fuel (dygraph e) None None
                   oneEmWidth None) ;;
  setInnerHTML html.

Definition didDrawChart (fuel : nat) (e : event) : handler unit := deselect fuel e.

Definition predraw (e : event) : handler unit :=
  this <~ getThis ;;
  if negb (is_generated_div_ this) then hret tt
  else
    appendToGraphDiv ;;;
    let area := area (dygraph e) in
    let tooltipDivWidth := tooltipDivWidth (dygraph e) in
    setLeft (numToString (nsub (nsub (nadd (area_x area) (area_w area)) tooltipDivWidth)
                            (ofZ 1)) ++ "px") ;;;
    setTop (numToString (area_y area) ++ "px") ;;;
    setWidth (numToString tooltipDivWidth ++ "px").

Definition destroy : handler unit :=
  fun this => (Done tt, {| tooltip_div_ := None;
                           is_generated_div_ := is_generated_div_ this;
                           one_em_width_ := one_em_width_ this |}).

End Handlers.

(* ================================================================== *)
(** ** Notions of the specification *)

(** The specification's [cycleLength]: the sum over the indices [0..N]
    inclusive with the index [N] wrapped back to [0], that is every element
    of the pattern and then the first one a second time. *)
Definition cycleLength (pattern : list num) : num :=
  fold_left nadd (pattern ++ [at_ pattern 0])%list (Fin 0).





(** The rational a finite number stands for. *)
Definition valueOf (x : num) : Q :=
  match x with
  | Fin q => q
  | _ => 0%Q
  end.

(** The sum of a list of rationals. *)
Fixpoint Qsum (l : list Q) : Q :=
  match l with
  | [] => 0%Q
  | q :: rest => (q + Qsum rest)%Q
  end.

(** The width of a block: its padding and its margin. *)
Definition widthOf (b : block) : Q := (valueOf (paddingLeft b) + valueOf (marginRight b))%Q.

(** A block whose padding and margin are finite. *)
Definition finiteBlock (b : block) : Prop :=
  exists p m, b = Block (Fin m) (Fin p).

(** The pass of the specification (its step 4) over a normalized pattern:
    pairs (drawn, gap) at the indices [0, 2, 4, ...] below [segmentSpan],
    the drawn value read at [i mod length], the gap at [(i + 1) mod length]
    while [i] is below the pattern's length and 0 for the repeated closing
    segment.  It is written from the specification's words, without the
    source's index loop, and compared with [drawPattern] below. *)
Definition specPass (normalized : list num) (segmentSpan : nat) : list block :=
  map (fun k =>
         Block (if (2 * k <? List.length normalized)%nat
                then at_ normalized ((2 * k + 1) mod List.length normalized)
                else Fin 0)
               (at_ normalized ((2 * k) mod List.length normalized)))
      (seq 0 ((segmentSpan + 1) / 2)).

(** Modelled from the spec: [Dygraph.isOK] is a function of the host
    library, outside the plugin's file; the specification reads its failure
    as "canvasy is not a valid finite number".  The plugin takes the check
    as a parameter; this instance serves the worked examples. *)
Definition isFiniteNumber (x : num) : bool :=
  match x with
  | Fin _ => true
  | _ => false
  end.

(** What the four replacements together do to one character. *)
Definition escapeChar (c : ascii) : string :=
  if Ascii.eqb c "&" then "&amp;"
  else if Ascii.eqb c dquote then "&quot;"
  else if Ascii.eqb c "<" then "&lt;"
  else if Ascii.eqb c ">" then "&gt;"
  else String c "".



(** A handler keeps the cached width when it ends, however it ends, with
    the [one_em_width_] it started with. *)
Definition keepsEmWidth {A : Type} (m : handler A) : Prop :=
  forall this, one_em_width_ (snd (m this)) = one_em_width_ this.

(* ================================================================== *)
(** ** Worked examples: a chart and a point *)

Definition plainFormatter : formatter := fun v _ _ _ => decimalString v.


Definition sampleSeries : seriesProperties :=
  {| visible := true; color := "#f00"; axis := 1 |}.

Definition sampleChart (yFormatter : formatter) (showZeros : bool) : Dygraph :=
  {| showLabelsOnHighlight := true;
     getLabels := ["Date"; "A<B"];
     getPropertiesForSeries := fun _ => sampleSeries;
     strokePatternOption := fun _ => Some [Fin 8; Fin 4];
     optionsViewForAxis_ := fun a =>
       match a with
       | AxisX => {| valueFormatter := plainFormatter |}
       | AxisY _ => {| valueFormatter := yFormatter |}
       end;
     numAxes := 1;
     labelsShowZeroValues := showZeros;
     getHighlightSeries := None;
     tooltipOption := "always";
     tooltipDivWidth := Fin 250;
     axisLabelWidth := Fin 50;
     area := {| area_x := Fin 50; area_y := Fin 0; area_w := Fin 400; area_h := Fin 300 |} |}.

Definition samplePoint (y cy : num) : point :=
  {| px := Fin (1 # 2); py := Fin (1 # 2); name := "A<B"; yval := y; canvasy := cy |}.

Definition sampleDiv : element :=
  {| innerHTML := "";
     elementStyle := {| display := "none"; left := "0px"; top := "0px"; width := "250px" |};
     inGraphDiv := true |}.

Definition sampleTooltip : tooltip :=
  {| tooltip_div_ := Some sampleDiv; is_generated_div_ := true; one_em_width_ := Fin 10 |}.

Definition sampleEvent : event :=
  {| dygraph := sampleChart plainFormatter true;
     selectedX := Some (Fin 3);
     selectedPoints := Some [samplePoint (Fin 7) (Fin 120)];
     selectedRow := Some 0;
     scrollX := Fin 0;
     innerWidth := Fin 1024 |}.

(* ================================================================== *)
(** ** Notions for the further properties *)

(** Reading the four character references back: [skip] characters of a
    reference just read are dropped. *)
Fixpoint unescapeFrom (skip : nat) (s : string) : string :=
  match s with
  | EmptyString => EmptyString
  | String c rest =>
      match skip with
      | S k => unescapeFrom k rest
      | O =>
          if Ascii.eqb c "&" then
            if String.prefix "amp;" rest then String "&" (unescapeFrom 4 rest)
            else if String.prefix "quot;" rest then String dquote (unescapeFrom 5 rest)
            else if String.prefix "lt;" rest then String "<" (unescapeFrom 3 rest)
            else if String.prefix "gt;" rest then String ">" (unescapeFrom 3 rest)
            else String c (unescapeFrom 0 rest)
          else String c (unescapeFrom 0 rest)
      end
  end.

Definition unescapeHTML (s : string) : string := unescapeFrom 0 s.

(** One of the four characters [escapeHTML] replaces. *)
Definition isMarkupChar (c : ascii) : bool :=
  Ascii.eqb c "&" || Ascii.eqb c dquote || Ascii.eqb c "<" || Ascii.eqb c ">".

(** A string without any of the four characters. *)
Fixpoint plain (s : string) : bool :=
  match s with
  | EmptyString => true
  | String c rest => negb (isMarkupChar c) && plain rest
  end.

(** The legend entry of one series when nothing is selected: the swatch
    and the escaped name, in the series colour. *)
Definition defaultEntry (g : Dygraph) (label dash : string) : string :=
  "<span style='font-weight: bold; color: " ++ color (getPropertiesForSeries g label) ++
  ";'>" ++ dash ++ (" <span class=" ++ DQ ++ "label" ++ DQ ++ ">") ++
  escapeHTML label ++ "</span></span>".

(** The series listed when nothing is selected: the labels after the
    first one whose series is visible. *)
Definition visibleLabels (g : Dygraph) : list string :=
  filter (fun l => visible (getPropertiesForSeries g l)) (tl (getLabels g)).

(** The entries of a list of series, each with the swatch rendered for it. *)
Fixpoint defaultEntries (numToString : num -> string) (fuel : nat) (g : Dygraph)
    (oneEmWidth : num) (labels : list string) : outcome (list string) :=
  match labels with
  | [] => Done []
  | l :: rest =>
      dash <- generateTooltipDashHTML numToString fuel (strokePatternOption g l)
                (color (getPropertiesForSeries g l)) oneEmWidth ;;
      entries <- defaultEntries numToString fuel g oneEmWidth rest ;;
      Done (defaultEntry g l dash :: entries)
  end.

(** Appending entries to a text, with a line break before each entry that
    does not come first. *)
Definition joinOnto (text : string) (entries : list string) : string :=
  fold_left (fun t e => (if String.eqb t "" then t else t ++ "<br/>") ++ e) entries text.

(** A selected point that passes both guards of the loop over
    [sel_points]. *)
Definition shown (isOK : num -> bool) (g : Dygraph) (pt : point) : bool :=
  negb (nzero (yval pt) && negb (labelsShowZeroValues g)) && isOK (canvasy pt).

(** The axis of a point's series is one of [1 .. numAxes]. *)
Definition axisKnown (g : Dygraph) (pt : point) : bool :=
  ((1 <=? axis (getPropertiesForSeries g (name pt)))
   && (axis (getPropertiesForSeries g (name pt)) <=? numAxes g))%nat.

(** The options view of the axis of a point's series. *)
Definition yViewOf (g : Dygraph) (pt : point) : optionsView :=
  optionsViewForAxis_ g (AxisY (axis (getPropertiesForSeries g (name pt)) - 1)).

(** A pattern on which the renderer never returns: at least two elements
    and an infinite loop count. *)
Definition loopsForever (strokePattern : option (list num)) (oneEmWidth : num) : bool :=
  match strokePattern with
  | Some p =>
      (2 <=? List.length p)%nat
      && match loopCount p oneEmWidth with PInf => true | _ => false end
  | None => false
  end.

(** The chart of the worked examples in ['follow'] mode, and a selection
    event in a window of a given inner width. *)
Definition followChart : Dygraph :=
  {| showLabelsOnHighlight := true;
     getLabels := getLabels (sampleChart plainFormatter true);
     getPropertiesForSeries := getPropertiesForSeries (sampleChart plainFormatter true);
     strokePatternOption := strokePatternOption (sampleChart plainFormatter true);
     optionsViewForAxis_ := optionsViewForAxis_ (sampleChart plainFormatter true);
     numAxes := 1;
     labelsShowZeroValues := true;
     getHighlightSeries := None;
     tooltipOption := "follow";
     tooltipDivWidth := Fin 250;
     axisLabelWidth := Fin 50;
     area := {| area_x := Fin 50; area_y := Fin 0; area_w := Fin 400; area_h := Fin 300 |} |}.

Definition followEvent (windowWidth : Q) : event :=
  {| dygraph := followChart;
     selectedX := Some (Fin 3);
     selectedPoints := Some [samplePoint (Fin 7) (Fin 120)];
     selectedRow := Some 0;
     scrollX := Fin 0;
     innerWidth := Fin windowWidth |}.

(** A chart that shows no labels on highlight, with a series whose pattern
    would keep the swatch renderer busy forever. *)
Definition quietChart : Dygraph :=
  {| showLabelsOnHighlight := false;
     getLabels := ["Date"; "A<B"];
     getPropertiesForSeries := fun _ => {| visible := true; color := "#f00"; axis := 7 |};
     strokePatternOption := fun _ => Some [Fin 0; Fin 0];
     optionsViewForAxis_ := fun _ => {| valueFormatter := plainFormatter |};
     numAxes := 1;
     labelsShowZeroValues := true;
     getHighlightSeries := None;
     tooltipOption := "always";
     tooltipDivWidth := Fin 250;
     axisLabelWidth := Fin 50;
     area := {| area_x := Fin 50; area_y := Fin 0; area_w := Fin 400; area_h := Fin 300 |} |}.

(* ================================================================== *)
(** ** Numbers: basic facts *)

Lemma nlt_ofNat (j n : nat) : nlt (ofNat j) (ofNat n) = (j <? n)%nat.
Proof.
  unfold nlt, ofNat, ofZ, Qle_bool; simpl.
  rewrite !Z.mul_1_r.
  destruct (Nat.ltb_spec j n) as [H | H].
  - apply negb_true_iff, Z.leb_gt. lia.
  - apply negb_false_iff, Z.leb_le. lia.
Qed.

Lemma nlt_ofNat_PInf (j : nat) : nlt (ofNat j) PInf = true.
Proof. reflexivity. Qed.

Lemma ngt_one_cases (x : num) :
  ngt (nfloor x) (Fin 1) = true ->
  nfloor x = PInf \/ exists n : nat, nfloor x = ofNat n /\ 1 < n.
Proof.
  destruct x as [q | | |]; simpl; try discriminate; auto.
  intros H. right.
  unfold ngt, nlt in H. apply negb_true_iff in H.
  assert (Hlt : (1 < Qfloor q)%Z).
  { destruct (Z.lt_ge_cases 1 (Qfloor q)) as [Hl | Hg]; [exact Hl | exfalso].
    assert (Hq : (inject_Z (Qfloor q) <= 1)%Q).
    { change 1%Q with (inject_Z 1). rewrite <- Zle_Qle. exact Hg. }
    apply Qle_bool_iff in Hq. congruence. }
  exists (Z.to_nat (Qfloor q)). split.
  - unfold ofNat, ofZ. rewrite Z2Nat.id by lia. reflexivity.
  - lia.
Qed.

(* ================================================================== *)
(** ** Outcomes and loops *)

Lemma forEach_app {A B : Type} (body : B -> A -> outcome B) (l1 l2 : list A) (acc : B) :
  forEach body (l1 ++ l2) acc = (acc' <- forEach body l1 acc ;; forEach body l2 acc').
Proof.
  revert acc. induction l1 as [| a l1 IH]; intros acc; simpl; [reflexivity |].
  destruct (body acc a); simpl; auto.
Qed.

Section DrawingFacts.

Context {A : Type} (emit : A -> block -> A).
Variable strokePattern : list num.
Variable pl : plan.

(** The bound on the rounds of the inner loop never cuts it short: once
    [n] rounds reach [segmentLoop], more rounds change nothing. *)
Lemma drawFrom_enough (n m i : nat) (dash : A) :
  segmentLoop pl <= i + 2 * n -> n <= m ->
  drawFrom emit strokePattern pl m i dash = drawFrom emit strokePattern pl n i dash.
Proof.
  revert m i dash. induction n as [| n IH]; intros m i dash Hn Hm.
  - destruct m as [| m]; [reflexivity |]. simpl.
    destruct (Nat.ltb_spec i (segmentLoop pl)); [lia | reflexivity].
  - destruct m as [| m]; [lia |]. simpl.
    destruct (Nat.ltb_spec i (segmentLoop pl)); [| reflexivity].
    apply IH; lia.
Qed.

Lemma drawPattern_enough (m : nat) (dash : A) :
  segmentLoop pl <= m ->
  drawFrom emit strokePattern pl m 0 dash = drawPattern emit strokePattern pl dash.
Proof. intros H. unfold drawPattern. apply drawFrom_enough; lia. Qed.

Lemma repeatPattern_eq (fuel j : nat) (dash : A) :
  repeatPattern emit strokePattern pl fuel j dash
  = if nlt (ofNat j) (loop pl) then
      match fuel with
      | O => OutOfFuel
      | S fuel' => repeatPattern emit strokePattern pl fuel' (S j)
                     (drawPattern emit strokePattern pl dash)
      end
    else Done dash.
Proof. destruct fuel; reflexivity. Qed.

(** A loop count [n] is reached after [n] rounds: [n] units of fuel are
    enough, and the result is [n] passes of the inner loop. *)
Lemma repeatPattern_finite (n : nat) :
  loop pl = ofNat n ->
  forall fuel j dash, j <= n -> n - j <= fuel ->
    repeatPattern emit strokePattern pl fuel j dash
    = Done (Nat.iter (n - j) (drawPattern emit strokePattern pl) dash).
Proof.
  intros Hn. induction fuel as [| fuel IH]; intros j dash Hj Hf;
    rewrite repeatPattern_eq, Hn, nlt_ofNat.
  - assert (j = n) by lia; subst j.
    rewrite Nat.ltb_irrefl, Nat.sub_diag. reflexivity.
  - destruct (Nat.ltb_spec j n) as [Hlt | Hge].
    + rewrite IH by lia.
      replace (n - j) with (S (n - S j)) by lia.
      rewrite Nat.iter_succ_r. reflexivity.
    + replace (n - j) with 0 by lia. reflexivity.
Qed.

(** An infinite loop count is never reached. *)
Lemma repeatPattern_infinite :
  loop pl = PInf ->
  forall fuel j dash, repeatPattern emit strokePattern pl fuel j dash = OutOfFuel.
Proof.
  intros Hinf. induction fuel as [| fuel IH]; intros j dash;
    rewrite repeatPattern_eq, Hinf, nlt_ofNat_PInf; auto.
Qed.

End DrawingFacts.

(* ================================================================== *)
(** ** The dash renderer: the plan *)

Lemma fold_left_nadd_map {I : Type} (f : I -> num) (l : list I) (a : num) :
  fold_left (fun acc i => nadd acc (f i)) l a = fold_left nadd (map f l) a.
Proof. revert a. induction l as [| i l IH]; intros a; simpl; auto. Qed.

Lemma map_at_seq (p : list num) : map (at_ p) (seq 0 (List.length p)) = p.
Proof.
  apply nth_ext with (d := at_ p 0) (d' := NaN).
  - rewrite length_map, length_seq. reflexivity.
  - intros n Hn. rewrite length_map, length_seq in Hn.
    rewrite (map_nth (at_ p) (seq 0 (List.length p)) 0 n).
    rewrite seq_nth by assumption. reflexivity.
Qed.

Lemma wrapped_indices (p : list num) :
  1 <= List.length p ->
  map (fun i => at_ p (i mod List.length p)) (seq 0 (S (List.length p)))
  = (p ++ [at_ p 0])%list.
Proof.
  intros Hlen. rewrite seq_S, map_app. simpl.
  rewrite Nat.Div0.mod_same. f_equal.
  transitivity (map (at_ p) (seq 0 (List.length p))); [| apply map_at_seq].
  apply map_ext_in. intros i Hi. apply in_seq in Hi.
  rewrite Nat.mod_small by lia. reflexivity.
Qed.

(** The index loop of the source adds up every element and then the first
    one again. *)
Lemma strokePixelLength_cycleLength (p : list num) :
  1 <= List.length p -> strokePixelLengthOf p = cycleLength p.
Proof.
  intros Hlen. unfold strokePixelLengthOf, cycleLength.
  rewrite fold_left_nadd_map, wrapped_indices by assumption. reflexivity.
Qed.

Lemma dashPlan_tile (p : list num) (w : num) :
  ngt (loopCount p w) (Fin 1) = true ->
  dashPlan p w = Plan (loopCount p w) (map (fun s => ndiv s w) p) (List.length p).
Proof. intros H. unfold dashPlan. rewrite H, length_map. reflexivity. Qed.

Lemma dashPlan_squeeze (p : list num) (w : num) :
  ngt (loopCount p w) (Fin 1) = false ->
  dashPlan p w
  = Plan (Fin 1) (map (fun s => ndiv s (strokePixelLengthOf p)) p) (List.length p + 1).
Proof. intros H. unfold dashPlan. rewrite H, length_map. reflexivity. Qed.

(** The loop count the drawing loops run with is 1 in the squeeze branch
    only. *)
Lemma loop_one_squeeze (p : list num) (w : num) :
  loop (dashPlan p w) = Fin 1 -> ngt (loopCount p w) (Fin 1) = false.
Proof.
  intros H. destruct (ngt (loopCount p w) (Fin 1)) eqn:E; [| reflexivity].
  rewrite dashPlan_tile in H by assumption. simpl in H.
  rewrite H in E. discriminate E.
Qed.

Lemma renderDash_dashed {A : Type} (solid empty : A) (emit : A -> block -> A)
    (fuel : nat) (p : list num) (w : num) :
  2 <= List.length p ->
  renderDash solid empty emit fuel (Some p) w
  = repeatPattern emit p (dashPlan p w) fuel 0 empty.
Proof.
  intros H. unfold renderDash.
  destruct (Nat.leb_spec (List.length p) 1); [lia | reflexivity].
Qed.

(* ================================================================== *)
(** ** Properties of the dash renderer *)

(** C5.  A pattern that is absent, empty or of one element gives the solid
    swatch: one block of left padding 1em with a 2px solid bottom border in
    the given colour, whatever the budget (and with no fuel at all: no loop
    runs). *)
Theorem solid_line_single_swatch (numToString : num -> string) (fuel : nat)
    (color : string) (oneEmWidth s : num) :
  generateTooltipDashHTML numToString fuel None color oneEmWidth = Done (solidHTML color)
  /\ generateTooltipDashHTML numToString fuel (Some []) color oneEmWidth = Done (solidHTML color)
  /\ generateTooltipDashHTML numToString fuel (Some [s]) color oneEmWidth = Done (solidHTML color)
  /\ dashBlocks fuel None oneEmWidth = Done [Block (Fin 0) (Fin 1)]
  /\ dashBlocks fuel (Some []) oneEmWidth = Done [Block (Fin 0) (Fin 1)]
  /\ dashBlocks fuel (Some [s]) oneEmWidth = Done [Block (Fin 0) (Fin 1)]
  /\ solidHTML color
     = "<div style=" ++ DQ ++ "display: inline-block; position: relative; bottom: .5ex; "
       ++ "padding-left: 1em; height: 1px; border-bottom: 2px solid " ++ color ++ ";"
       ++ DQ ++ "></div>".
Proof. repeat split; reflexivity. Qed.

(** C3.  A pattern of two elements drawn with a loop count of 1 (the
    squeeze branch) gives exactly two blocks: the first with the two
    normalized elements as padding and margin, the second with the first
    element again as padding and a right margin of zero. *)
Theorem squeeze_two_blocks (numToString : num -> string) (a b oneEmWidth : num)
    (color : string) (fuel : nat) :
  loop (dashPlan [a; b] oneEmWidth) = Fin 1 ->
  dashBlocks (S fuel) (Some [a; b]) oneEmWidth
  = Done [Block (ndiv b (strokePixelLengthOf [a; b])) (ndiv a (strokePixelLengthOf [a; b]));
          Block (Fin 0) (ndiv a (strokePixelLengthOf [a; b]))]
  /\ generateTooltipDashHTML numToString (S fuel) (Some [a; b]) color oneEmWidth
     = Done (blockHTML numToString color
               (Block (ndiv b (strokePixelLengthOf [a; b]))
                      (ndiv a (strokePixelLengthOf [a; b])))
             ++ blockHTML numToString color
                  (Block (Fin 0) (ndiv a (strokePixelLengthOf [a; b])))).
Proof.
  intros H. apply loop_one_squeeze in H.
  unfold dashBlocks, generateTooltipDashHTML.
  rewrite !renderDash_dashed by (simpl; lia).
  rewrite (dashPlan_squeeze _ _ H).
  split.
  - rewrite (repeatPattern_finite _ _ _ 1) by (simpl; try lia; reflexivity).
    reflexivity.
  - rewrite (repeatPattern_finite _ _ _ 1) by (simpl; try lia; reflexivity).
    reflexivity.
Qed.

(** The end-to-end example: pattern [[8,4]], colour [#f00], budget 1. *)
Lemma squeeze_two_blocks_witness :
  loop (dashPlan [Fin 8; Fin 4] (Fin 1)) = Fin 1
  /\ dashBlocks 1 (Some [Fin 8; Fin 4]) (Fin 1)
     = Done [Block (Fin (1 # 5)) (Fin (2 # 5)); Block (Fin 0) (Fin (2 # 5))]
  /\ generateTooltipDashHTML decimalString 1 (Some [Fin 8; Fin 4]) "#f00" (Fin 1)
     = Done ("<div style=" ++ DQ ++ "display: inline-block; position: relative; bottom: .5ex; "
             ++ "margin-right: 0.2em; padding-left: 0.4em; height: 1px; "
             ++ "border-bottom: 2px solid #f00;" ++ DQ ++ "></div>"
             ++ "<div style=" ++ DQ ++ "display: inline-block; position: relative; bottom: .5ex; "
             ++ "margin-right: 0em; padding-left: 0.4em; height: 1px; "
             ++ "border-bottom: 2px solid #f00;" ++ DQ ++ "></div>").
Proof.
  split; [reflexivity |].
  destruct (squeeze_two_blocks decimalString (Fin 8) (Fin 4) (Fin 1) "#f00" 0 eq_refl)
    as [Hblocks Hhtml].
  split; [rewrite Hblocks | rewrite Hhtml]; reflexivity.
Defined.

(** X1.  Whenever the computed loop count is not above 1 (zero, negative,
    [-Infinity] or [NaN]) the renderer squeezes: loop count 1, every element
    divided by [cycleLength], the first segment drawn again at the end. *)
Lemma squeeze_when_not_above_one (pattern : list num) (oneEmWidth : num) :
  2 <= List.length pattern ->
  ngt (loopCount pattern oneEmWidth) (Fin 1) = false ->
  dashPlan pattern oneEmWidth
  = Plan (Fin 1) (map (fun s => ndiv s (cycleLength pattern)) pattern)
         (List.length pattern + 1).
Proof.
  intros Hlen H. rewrite dashPlan_squeeze by exact H.
  rewrite strokePixelLength_cycleLength by lia. reflexivity.
Qed.

Lemma squeeze_when_not_above_one_witness :
  2 <= List.length [Fin 8; Fin 4]
  /\ ngt (loopCount [Fin 8; Fin 4] (Fin 1)) (Fin 1) = false
  /\ dashPlan [Fin 8; Fin 4] (Fin 1) = Plan (Fin 1) [Fin (2 # 5); Fin (1 # 5)] 3.
Proof.
  split; [simpl; lia |]. split; [reflexivity |].
  rewrite (squeeze_when_not_above_one [Fin 8; Fin 4] (Fin 1))
    by (simpl; try lia; reflexivity).
  reflexivity.
Defined.

(** C1, at the pattern [[0,0]] with the budget 10.  The divisor
    [cycleLength - pattern[0]] is zero, the loop count is [Infinity], and
    [Infinity > 1] sends the renderer to the tile branch: the elements are
    divided by the budget, the first segment is not repeated, and the outer
    loop never ends. *)
Theorem zero_pattern_takes_tile_branch :
  at_ [Fin 0; Fin 0] 0 = strokePixelLengthOf [Fin 0; Fin 0]
  /\ loopCount [Fin 0; Fin 0] (Fin 10) = PInf
  /\ dashPlan [Fin 0; Fin 0] (Fin 10) = Plan PInf [Fin 0; Fin 0] 2
  /\ dashPlan [Fin 0; Fin 0] (Fin 10)
     <> Plan (Fin 1) (map (fun s => ndiv s (cycleLength [Fin 0; Fin 0])) [Fin 0; Fin 0]) 3
  /\ forall (numToString : num -> string) (fuel : nat) (color : string),
       generateTooltipDashHTML numToString fuel (Some [Fin 0; Fin 0]) color (Fin 10)
       = OutOfFuel.
Proof.
  split; [reflexivity |]. split; [reflexivity |]. split; [reflexivity |].
  split; [discriminate |].
  intros numToString fuel color. unfold generateTooltipDashHTML.
  rewrite renderDash_dashed by (simpl; lia).
  apply repeatPattern_infinite. reflexivity.
Qed.

(* ================================================================== *)
(** ** The markup and the blocks it describes *)

Lemma append_assoc (s1 s2 s3 : string) : (s1 ++ s2) ++ s3 = s1 ++ (s2 ++ s3).
Proof. induction s1 as [| c s1 IH]; simpl; [reflexivity | rewrite IH; reflexivity]. Qed.

Lemma append_empty_r (s : string) : s ++ "" = s.
Proof. induction s as [| c s IH]; simpl; [reflexivity | rewrite IH; reflexivity]. Qed.

(** The markup of a sequence of blocks. *)
Lemma flat_snoc (f : block -> string) (bs : list block) (b : block) :
  String.concat "" (map f (bs ++ [b])) = String.concat "" (map f bs) ++ f b.
Proof.
  induction bs as [| x bs IH]; simpl.
  - reflexivity.
  - destruct bs as [| y bs]; simpl in *.
    + reflexivity.
    + rewrite IH. rewrite append_assoc. reflexivity.
Qed.

Section Homomorphism.

(** The drawing loops commute with any map between accumulators that
    commutes with [emit]. *)
Context {A B : Type} (emitA : A -> block -> A) (emitB : B -> block -> B) (h : A -> B).
Hypothesis h_emit : forall a b, h (emitA a b) = emitB (h a) b.
Variable strokePattern : list num.
Variable pl : plan.

Lemma drawFrom_hom (n i : nat) (a : A) :
  h (drawFrom emitA strokePattern pl n i a) = drawFrom emitB strokePattern pl n i (h a).
Proof.
  revert i a. induction n as [| n IH]; intros i a; simpl; [reflexivity |].
  destruct (i <? segmentLoop pl)%nat; [| reflexivity].
  rewrite IH, h_emit. reflexivity.
Qed.

Lemma repeatPattern_hom (fuel j : nat) (a : A) :
  omap h (repeatPattern emitA strokePattern pl fuel j a)
  = repeatPattern emitB strokePattern pl fuel j (h a).
Proof.
  revert j a. induction fuel as [| fuel IH]; intros j a;
    rewrite (repeatPattern_eq emitA), (repeatPattern_eq emitB);
    destruct (nlt (ofNat j) (loop pl)); try reflexivity.
  rewrite IH. unfold drawPattern. rewrite drawFrom_hom. reflexivity.
Qed.

End Homomorphism.

(** For a dashed pattern the markup returned is, block after block, the
    markup of the blocks of [dashBlocks]. *)
Lemma dash_markup_of_blocks (numToString : num -> string) (fuel : nat) (p : list num)
    (color : string) (w : num) :
  2 <= List.length p ->
  generateTooltipDashHTML numToString fuel (Some p) color w
  = omap (fun bs => String.concat "" (map (blockHTML numToString color) bs))
         (dashBlocks fuel (Some p) w).
Proof.
  intros Hlen. unfold generateTooltipDashHTML, dashBlocks.
  rewrite !renderDash_dashed by exact Hlen.
  rewrite (repeatPattern_hom (fun dash b => (dash ++ [b])%list)
             (fun dash b => dash ++ blockHTML numToString color b)
             (fun bs => String.concat "" (map (blockHTML numToString color) bs))).
  - reflexivity.
  - intros bs b. apply flat_snoc.
Qed.

(* ================================================================== *)
(** ** Widths *)

Lemma Qzero_iff (q : Q) : Qzero q = true <-> (q == 0)%Q.
Proof. unfold Qzero, Qeq. simpl. rewrite Z.mul_1_r. apply Z.eqb_eq. Qed.

Lemma Qzero_false (q : Q) : Qzero q = false -> ~ (q == 0)%Q.
Proof. intros H E. apply Qzero_iff in E. congruence. Qed.

Lemma totalEm_snoc (bs : list block) (b : block) :
  totalEm (bs ++ [b]) = nadd (totalEm bs) (nadd (paddingLeft b) (marginRight b)).
Proof. unfold totalEm. rewrite fold_left_app. reflexivity. Qed.

Lemma iter_snoc_repeat (b : block) (n : nat) :
  Nat.iter n (fun dash => (dash ++ [b])%list) [] = repeat b n.
Proof.
  induction n as [| n IH]; simpl; [reflexivity |].
  rewrite IH. symmetry. apply repeat_cons.
Qed.

(** [n] equal blocks of finite padding [p] and margin [m] are [n * (p + m)]
    em wide. *)
Lemma totalEm_repeat (p m : Q) (n : nat) :
  exists t : Q,
    totalEm (repeat (Block (Fin m) (Fin p)) n) = Fin t
    /\ (t == inject_Z (Z.of_nat n) * (p + m))%Q.
Proof.
  induction n as [| n [t [Ht Et]]].
  - exists 0%Q. split; [reflexivity | ring].
  - change (repeat (Block (Fin m) (Fin p)) (S n))
      with (Block (Fin m) (Fin p) :: repeat (Block (Fin m) (Fin p)) n).
    rewrite repeat_cons, totalEm_snoc, Ht. cbn [nadd paddingLeft marginRight].
    eexists. split; [reflexivity |].
    rewrite !Qred_correct, Et, Nat2Z.inj_succ.
    unfold Z.succ. rewrite inject_Z_plus. ring.
Qed.

(** The divisor of the loop count is, for two finite elements, their sum. *)
Lemma two_element_period (a b : Q) :
  exists d : Q,
    nsub (strokePixelLengthOf [Fin a; Fin b]) (at_ [Fin a; Fin b] 0) = Fin d
    /\ (d == a + b)%Q.
Proof.
  eexists. split; [reflexivity |].
  rewrite !Qred_correct. ring.
Qed.

Lemma two_element_tile (a b w : Q) :
  ngt (loopCount [Fin a; Fin b] (Fin w)) (Fin 1) = true ->
  loopCount [Fin a; Fin b] (Fin w) <> PInf ->
  Qzero w = false
  /\ exists n : nat,
       loopCount [Fin a; Fin b] (Fin w) = ofNat n /\ 1 < n
       /\ forall fuel, n <= fuel ->
            dashBlocks fuel (Some [Fin a; Fin b]) (Fin w)
            = Done (repeat (Block (Fin (Qred (b / w))) (Fin (Qred (a / w)))) n).
Proof.
  intros Hgt Hfin.
  assert (Hw : Qzero w = false).
  { destruct (Qzero w) eqn:Ew; [exfalso | reflexivity].
    unfold loopCount in Hgt, Hfin.
    destruct (two_element_period a b) as [d [Hd _]]. rewrite Hd in Hgt, Hfin.
    unfold ndiv in Hgt, Hfin. rewrite Ew in Hgt, Hfin.
    destruct (Qzero d) eqn:Ed; [discriminate Hgt |].
    apply Qzero_iff in Ew.
    assert (E0 : (Qred (w / d) == 0)%Q) by (rewrite Qred_correct, Ew; field; apply Qzero_false; exact Ed).
    cbn [nfloor] in Hgt. rewrite (Qfloor_comp _ _ E0) in Hgt. discriminate Hgt. }
  split; [exact Hw |].
  destruct (ngt_one_cases _ Hgt) as [Hinf | [n [Hn H1]]]; [contradiction |].
  exists n. split; [exact Hn |]. split; [exact H1 |].
  intros fuel Hfuel. unfold dashBlocks.
  rewrite renderDash_dashed by (simpl; lia).
  rewrite (repeatPattern_finite _ _ _ n);
    [| rewrite dashPlan_tile by exact Hgt; exact Hn | lia | lia].
  rewrite Nat.sub_0_r, dashPlan_tile by exact Hgt.
  rewrite <- iter_snoc_repeat.
  unfold drawPattern. cbn. unfold ndiv. rewrite Hw. reflexivity.
Qed.

(** C7 as stated fails: for the pattern [[1,1]] and the budget 10 the loop
    count is 5, the five blocks are 1em wide in total, and 1em divided by
    the budget is 0.1, not 5. *)
Lemma tiling_sum_over_budget_is_not_loop_count :
  ngt (loopCount [Fin 1; Fin 1] (Fin 10)) (Fin 1) = true
  /\ loopCount [Fin 1; Fin 1] (Fin 10) = Fin 5
  /\ dashBlocks 5 (Some [Fin 1; Fin 1]) (Fin 10)
     = Done (repeat (Block (Fin (1 # 10)) (Fin (1 # 10))) 5)
  /\ totalEm (repeat (Block (Fin (1 # 10)) (Fin (1 # 10))) 5) = Fin 1
  /\ ndiv (totalEm (repeat (Block (Fin (1 # 10)) (Fin (1 # 10))) 5)) (Fin 10) = Fin (1 # 10)
  /\ ndiv (totalEm (repeat (Block (Fin (1 # 10)) (Fin (1 # 10))) 5)) (Fin 10)
     <> loopCount [Fin 1; Fin 1] (Fin 10).
Proof. repeat split; try reflexivity. discriminate. Qed.

(** C7, amended.  For a pattern [[a,b]] of two finite elements and a budget
    for which the loop count [n] exceeds 1 (and is finite), the renderer
    emits [n] blocks, each of padding [a / budget] and margin [b / budget];
    their total width in em, multiplied by the budget, is [n * (a + b)]:
    the total is the loop count times the period over the budget. *)
Theorem tiling_sum_times_budget (numToString : num -> string) (color : string) (a b w : Q) :
  ngt (loopCount [Fin a; Fin b] (Fin w)) (Fin 1) = true ->
  loopCount [Fin a; Fin b] (Fin w) <> PInf ->
  exists (n : nat) (total : Q),
    loopCount [Fin a; Fin b] (Fin w) = ofNat n /\ 1 < n
    /\ (forall fuel, n <= fuel ->
          dashBlocks fuel (Some [Fin a; Fin b]) (Fin w)
          = Done (repeat (Block (Fin (Qred (b / w))) (Fin (Qred (a / w)))) n)
          /\ generateTooltipDashHTML numToString fuel (Some [Fin a; Fin b]) color (Fin w)
             = Done (String.concat ""
                       (map (blockHTML numToString color)
                            (repeat (Block (Fin (Qred (b / w))) (Fin (Qred (a / w)))) n))))
    /\ totalEm (repeat (Block (Fin (Qred (b / w))) (Fin (Qred (a / w)))) n) = Fin total
    /\ (total * w == inject_Z (Z.of_nat n) * (a + b))%Q.
Proof.
  intros Hgt Hfin.
  destruct (two_element_tile a b w Hgt Hfin) as [Hw [n [Hn [H1 Hblocks]]]].
  destruct (totalEm_repeat (Qred (a / w)) (Qred (b / w)) n) as [t [Ht Et]].
  exists n, t. split; [exact Hn |]. split; [exact H1 |]. split; [| split; [exact Ht |]].
  - intros fuel Hfuel. split; [apply Hblocks; exact Hfuel |].
    rewrite dash_markup_of_blocks by (simpl; lia).
    rewrite Hblocks by exact Hfuel. reflexivity.
  - rewrite Et, !Qred_correct. field. apply Qzero_false. exact Hw.
Qed.

Lemma tiling_sum_times_budget_witness :
  ngt (loopCount [Fin 1; Fin 1] (Fin 10)) (Fin 1) = true
  /\ exists (n : nat) (total : Q),
       loopCount [Fin 1; Fin 1] (Fin 10) = ofNat n
       /\ totalEm (repeat (Block (Fin (Qred (1 / 10))) (Fin (Qred (1 / 10)))) n) = Fin total
       /\ (total * 10 == inject_Z (Z.of_nat n) * (1 + 1))%Q.
Proof.
  split; [reflexivity |].
  destruct (tiling_sum_times_budget decimalString "#f00" 1 1 10 eq_refl)
    as [n [total [Hn [_ [_ [Ht Et]]]]]]; [discriminate |].
  exists n, total. split; [exact Hn |]. split; [exact Ht | exact Et].
Defined.

(** C6, at the pattern [[10,1,1]] with the budget 24.  The loop count is
    [floor(24 / 12) = 2], so the pattern is tiled; each pass of an
    odd-length pattern ends with a block whose margin wraps to the first
    element, so a pass is [(10 + 1 + 1 + 10) / 24] em wide and the four
    blocks are [11/6] em wide in total, against a budget of 1em. *)
Theorem odd_pattern_overflows_budget :
  loopCount [Fin 10; Fin 1; Fin 1] (Fin 24) = Fin 2
  /\ dashBlocks 2 (Some [Fin 10; Fin 1; Fin 1]) (Fin 24)
     = Done [Block (Fin (1 # 24)) (Fin (5 # 12)); Block (Fin (5 # 12)) (Fin (1 # 24));
             Block (Fin (1 # 24)) (Fin (5 # 12)); Block (Fin (5 # 12)) (Fin (1 # 24))]
  /\ omap totalEm (dashBlocks 2 (Some [Fin 10; Fin 1; Fin 1]) (Fin 24)) = Done (Fin (11 # 6))
  /\ ngt (Fin (11 # 6)) (Fin 1) = true
  /\ forall (numToString : num -> string) (color : string),
       generateTooltipDashHTML numToString 2 (Some [Fin 10; Fin 1; Fin 1]) color (Fin 24)
       = Done (String.concat ""
                 (map (blockHTML numToString color)
                    [Block (Fin (1 # 24)) (Fin (5 # 12)); Block (Fin (5 # 12)) (Fin (1 # 24));
                     Block (Fin (1 # 24)) (Fin (5 # 12)); Block (Fin (5 # 12)) (Fin (1 # 24))])).
Proof.
  repeat split; try reflexivity.
  intros numToString color. rewrite dash_markup_of_blocks by (simpl; lia). reflexivity.
Qed.

(* ================================================================== *)
(** ** Widths of whole patterns *)

Lemma Qsum_app (l1 l2 : list Q) : (Qsum (l1 ++ l2) == Qsum l1 + Qsum l2)%Q.
Proof.
  induction l1 as [| q l1 IH]; cbn [app Qsum]; [ring | rewrite IH; ring].
Qed.

Lemma totalEm_from (blocks : list block) (a : Q) :
  Forall finiteBlock blocks ->
  exists t,
    fold_left (fun t b => nadd t (nadd (paddingLeft b) (marginRight b))) blocks (Fin a) = Fin t
    /\ (t == a + Qsum (map widthOf blocks))%Q.
Proof.
  intros H. revert a. induction H as [| b bs [p [m ->]] _ IH]; intros a.
  - exists a. split; [reflexivity | simpl; ring].
  - cbn [fold_left map paddingLeft marginRight nadd].
    destruct (IH (Qred (a + Qred (p + m)))) as [t [Ht Et]].
    exists t. split; [exact Ht |].
    rewrite Et, !Qred_correct. unfold widthOf. simpl. ring.
Qed.

Lemma totalEm_finite (blocks : list block) :
  Forall finiteBlock blocks ->
  exists t, totalEm blocks = Fin t /\ (t == Qsum (map widthOf blocks))%Q.
Proof.
  intros H. destruct (totalEm_from blocks 0 H) as [t [Ht Et]].
  exists t. split; [exact Ht | rewrite Et; ring].
Qed.

Lemma drawFrom_snoc (p : list num) (pl : plan) (n i : nat) (acc : list block) :
  drawFrom snoc p pl n i acc = (acc ++ drawFrom snoc p pl n i [])%list.
Proof.
  revert i acc. induction n as [| n IH]; intros i acc; simpl.
  - rewrite app_nil_r. reflexivity.
  - destruct (i <? segmentLoop pl)%nat; [| rewrite app_nil_r; reflexivity].
    rewrite IH. rewrite (IH (i + 2) (snoc [] _)). unfold snoc.
    rewrite <- app_assoc. reflexivity.
Qed.

Lemma snoc_nil (b : block) : snoc [] b = [b].
Proof. reflexivity. Qed.

Lemma skipn_two (ns : list Q) (i : nat) :
  i + 1 < List.length ns ->
  skipn i ns = nth i ns 0%Q :: nth (i + 1) ns 0%Q :: skipn (i + 2) ns.
Proof.
  revert i. induction ns as [| q ns IH]; intros i H; simpl in H; [lia |].
  destruct i as [| i].
  - destruct ns as [| q' ns]; simpl in H; [lia | reflexivity].
  - cbn [skipn nth Nat.add]. apply IH. lia.
Qed.

Lemma skipn_last (ns : list Q) (i : nat) :
  i + 1 = List.length ns -> skipn i ns = [nth i ns 0%Q].
Proof.
  revert i. induction ns as [| q ns IH]; intros i H; simpl in H; [lia |].
  destruct i as [| i].
  - destruct ns; simpl in H; [reflexivity | lia].
  - cbn [skipn nth]. apply IH. lia.
Qed.

Lemma at_map_Fin (ns : list Q) (k : nat) :
  k < List.length ns -> at_ (map Fin ns) k = Fin (nth k ns 0%Q).
Proof.
  intros H. unfold at_.
  rewrite (nth_indep _ NaN (Fin 0%Q)) by (rewrite length_map; exact H).
  apply (map_nth Fin).
Qed.

Section Passes.

Variable p : list num.
Variable ns : list Q.
Variable pl : plan.
Hypothesis Hnorm : normalizedPattern pl = map Fin ns.
Hypothesis Hlen : List.length p = List.length ns.

Lemma segment_inner (i : nat) :
  i + 1 < List.length ns ->
  segment p pl i = Block (Fin (nth (i + 1) ns 0%Q)) (Fin (nth i ns 0%Q)).
Proof.
  intros H. unfold segment. rewrite Hnorm, length_map, Hlen.
  destruct (Nat.ltb_spec i (List.length ns)); [| lia].
  rewrite !Nat.mod_small by lia. rewrite !at_map_Fin by lia. reflexivity.
Qed.

Lemma segment_wrap (i : nat) :
  i + 1 = List.length ns ->
  segment p pl i = Block (Fin (nth 0 ns 0%Q)) (Fin (nth i ns 0%Q)).
Proof.
  intros H. unfold segment. rewrite Hnorm, length_map, Hlen.
  destruct (Nat.ltb_spec i (List.length ns)); [| lia].
  rewrite H, Nat.Div0.mod_same, Nat.mod_small by lia.
  rewrite !at_map_Fin by lia. reflexivity.
Qed.

Lemma segment_closing :
  0 < List.length ns ->
  segment p pl (List.length ns) = Block (Fin 0) (Fin (nth 0 ns 0%Q)).
Proof.
  intros H. unfold segment. rewrite Hnorm, length_map, Hlen.
  rewrite Nat.ltb_irrefl, Nat.Div0.mod_same, at_map_Fin by lia. reflexivity.
Qed.

(** An even-length pass that stops at the pattern's length. *)
Lemma pass_tile_even (r : nat) :
  segmentLoop pl = List.length ns ->
  forall n i, i + 2 * r = List.length ns -> r <= n ->
    Forall finiteBlock (drawFrom snoc p pl n i [])
    /\ (Qsum (map widthOf (drawFrom snoc p pl n i [])) == Qsum (skipn i ns))%Q.
Proof.
  intros HL. induction r as [| r IH]; intros n i Hi Hn.
  - assert (i = List.length ns) by lia; subst i.
    rewrite skipn_all. destruct n; simpl; [| rewrite HL, Nat.ltb_irrefl];
      (split; [constructor | simpl; reflexivity]).
  - destruct n as [| n]; [lia |]. simpl. rewrite HL.
    destruct (Nat.ltb_spec i (List.length ns)); [| lia].
    rewrite drawFrom_snoc, snoc_nil. cbn [app].
    destruct (IH n (i + 2)) as [Hf Hs]; [lia | lia |].
    rewrite segment_inner by lia. split.
    + constructor; [do 2 eexists; reflexivity | exact Hf].
    + cbn [map Qsum].
      rewrite Hs, (skipn_two ns i) by lia. unfold widthOf. simpl. ring.
Qed.

(** A pass that goes one index beyond the pattern's length: the pattern
    and then its first element again. *)
Lemma pass_squeeze_even (r : nat) :
  segmentLoop pl = List.length ns + 1 ->
  0 < List.length ns ->
  forall n i, i + 2 * r = List.length ns -> r + 1 <= n ->
    Forall finiteBlock (drawFrom snoc p pl n i [])
    /\ (Qsum (map widthOf (drawFrom snoc p pl n i []))
        == Qsum (skipn i ns) + nth 0 ns 0)%Q.
Proof.
  intros HL Hpos. induction r as [| r IH]; intros n i Hi Hn.
  - assert (i = List.length ns) by lia; subst i.
    rewrite skipn_all. destruct n as [| n]; [lia |]. simpl. rewrite HL.
    destruct (Nat.ltb_spec (List.length ns) (List.length ns + 1)); [| lia].
    rewrite segment_closing by lia. rewrite snoc_nil.
    assert (Hstop : drawFrom snoc p pl n (List.length ns + 2) [Block (Fin 0) (Fin (nth 0 ns 0%Q))]
                    = [Block (Fin 0) (Fin (nth 0 ns 0%Q))]).
    { destruct n; simpl; [reflexivity |]. rewrite HL.
      destruct (Nat.ltb_spec (List.length ns + 2) (List.length ns + 1)); [lia | reflexivity]. }
    rewrite Hstop. split.
    + constructor; [do 2 eexists; reflexivity | constructor].
    + unfold widthOf. simpl. ring.
  - destruct n as [| n]; [lia |]. simpl. rewrite HL.
    destruct (Nat.ltb_spec i (List.length ns + 1)); [| lia].
    rewrite drawFrom_snoc, snoc_nil. cbn [app].
    destruct (IH n (i + 2)) as [Hf Hs]; [lia | lia |].
    rewrite segment_inner by lia. split.
    + constructor; [do 2 eexists; reflexivity | exact Hf].
    + cbn [map Qsum].
      rewrite Hs, (skipn_two ns i) by lia. unfold widthOf. simpl. ring.
Qed.

Lemma pass_squeeze_odd (r : nat) :
  segmentLoop pl = List.length ns + 1 ->
  forall n i, i + 2 * r + 1 = List.length ns -> r + 1 <= n ->
    Forall finiteBlock (drawFrom snoc p pl n i [])
    /\ (Qsum (map widthOf (drawFrom snoc p pl n i []))
        == Qsum (skipn i ns) + nth 0 ns 0)%Q.
Proof.
  intros HL. induction r as [| r IH]; intros n i Hi Hn.
  - destruct n as [| n]; [lia |]. simpl. rewrite HL.
    destruct (Nat.ltb_spec i (List.length ns + 1)); [| lia].
    rewrite segment_wrap by lia. rewrite snoc_nil.
    assert (Hstop : drawFrom snoc p pl n (i + 2)
                      [Block (Fin (nth 0 ns 0%Q)) (Fin (nth i ns 0%Q))]
                    = [Block (Fin (nth 0 ns 0%Q)) (Fin (nth i ns 0%Q))]).
    { destruct n; simpl; [reflexivity |]. rewrite HL.
      destruct (Nat.ltb_spec (i + 2) (List.length ns + 1)); [lia | reflexivity]. }
    rewrite Hstop. split.
    + constructor; [do 2 eexists; reflexivity | constructor].
    + rewrite (skipn_last ns i) by lia. unfold widthOf. simpl. ring.
  - destruct n as [| n]; [lia |]. simpl. rewrite HL.
    destruct (Nat.ltb_spec i (List.length ns + 1)); [| lia].
    rewrite drawFrom_snoc, snoc_nil. cbn [app].
    destruct (IH n (i + 2)) as [Hf Hs]; [lia | lia |].
    rewrite segment_inner by lia. split.
    + constructor; [do 2 eexists; reflexivity | exact Hf].
    + cbn [map Qsum].
      rewrite Hs, (skipn_two ns i) by lia. unfold widthOf. simpl. ring.
Qed.

End Passes.

Lemma sum_Fin (qs : list Q) (a : Q) :
  exists t, fold_left nadd (map Fin qs) (Fin a) = Fin t /\ (t == a + Qsum qs)%Q.
Proof.
  revert a. induction qs as [| q qs IH]; intros a.
  - exists a. split; [reflexivity | simpl; ring].
  - cbn [map fold_left nadd]. destruct (IH (Qred (a + q))) as [t [Ht Et]].
    exists t. split; [exact Ht |]. rewrite Et, Qred_correct. cbn [Qsum]. ring.
Qed.

Lemma cycleLength_Fin (qs : list Q) :
  1 <= List.length qs ->
  exists c, strokePixelLengthOf (map Fin qs) = Fin c /\ (c == Qsum qs + nth 0 qs 0)%Q.
Proof.
  intros H. rewrite strokePixelLength_cycleLength by (rewrite length_map; exact H).
  unfold cycleLength. rewrite at_map_Fin by lia.
  change [Fin (nth 0 qs 0%Q)] with (map Fin [nth 0 qs 0%Q]). rewrite <- map_app.
  destruct (sum_Fin (qs ++ [nth 0 qs 0%Q]) 0) as [t [Ht Et]].
  exists t. split; [exact Ht |]. rewrite Et, Qsum_app. cbn [Qsum]. ring.
Qed.

Lemma Qsum_positive (qs : list Q) :
  Forall (fun q => 0 < q)%Q qs -> 1 <= List.length qs ->
  (0 < Qsum qs)%Q /\ (0 < nth 0 qs 0)%Q.
Proof.
  intros H. induction H as [| q qs Hq Hqs IH]; simpl; intros Hlen; [lia |].
  split; [| exact Hq].
  destruct qs as [| q' qs]; [simpl; lra |].
  destruct IH as [IH _]; [simpl; lia |]. lra.
Qed.

Lemma normalize_Fin (qs : list Q) (c : Q) :
  Qzero c = false ->
  map (fun s => ndiv s (Fin c)) (map Fin qs) = map Fin (map (fun q => Qred (q / c)) qs).
Proof.
  intros Hc. rewrite !map_map. apply map_ext. intros q. unfold ndiv. rewrite Hc. reflexivity.
Qed.

Lemma Qsum_normalized (qs : list Q) (c : Q) :
  ~ (c == 0)%Q ->
  (Qsum (map (fun q => Qred (q / c)) qs) == Qsum qs / c)%Q.
Proof.
  intros Hc. induction qs as [| q qs IH]; cbn [map Qsum].
  - field. exact Hc.
  - rewrite IH, Qred_correct. field. exact Hc.
Qed.

Lemma first_normalized (qs : list Q) (c : Q) :
  1 <= List.length qs ->
  (nth 0 (map (fun q => Qred (q / c)) qs) 0 == nth 0 qs 0 / c)%Q.
Proof.
  destruct qs as [| q qs]; [simpl; lia |]. intros _. cbn [map nth]. apply Qred_correct.
Qed.

Lemma Qpos_not_zero (c : Q) : (0 < c)%Q -> Qzero c = false /\ ~ (c == 0)%Q.
Proof.
  intros H. assert (Hn : ~ (c == 0)%Q) by lra. split; [| exact Hn].
  destruct (Qzero c) eqn:E; [| reflexivity]. apply Qzero_iff in E. contradiction.
Qed.

(** X2.  In the squeeze branch a pattern of positive numbers, of even or
    odd length, is drawn exactly one em wide. *)
Theorem squeeze_fills_one_em (qs : list Q) (oneEmWidth : num) (fuel : nat) :
  2 <= List.length qs ->
  Forall (fun q => 0 < q)%Q qs ->
  ngt (loopCount (map Fin qs) oneEmWidth) (Fin 1) = false ->
  exists blocks t,
    dashBlocks (S fuel) (Some (map Fin qs)) oneEmWidth = Done blocks
    /\ totalEm blocks = Fin t /\ (t == 1)%Q.
Proof.
  intros Hlen Hpos Hsq.
  destruct (cycleLength_Fin qs) as [c [Hc Ec]]; [lia |].
  destruct (Qsum_positive qs Hpos) as [HS H0]; [lia |].
  assert (Hcpos : (0 < c)%Q) by lra.
  destruct (Qpos_not_zero c Hcpos) as [Hz Hnz].
  set (ns := map (fun q => Qred (q / c)) qs).
  set (pl := Plan (Fin 1) (map Fin ns) (List.length ns + 1)).
  assert (Hplan : dashPlan (map Fin qs) oneEmWidth = pl).
  { rewrite dashPlan_squeeze by exact Hsq. rewrite Hc, normalize_Fin by exact Hz.
    subst pl ns. rewrite !length_map. reflexivity. }
  assert (Hns : List.length ns = List.length qs) by (subst ns; apply length_map).
  assert (Hpass : Forall finiteBlock (drawFrom snoc (map Fin qs) pl (segmentLoop pl) 0 [])
                  /\ (Qsum (map widthOf (drawFrom snoc (map Fin qs) pl (segmentLoop pl) 0 []))
                      == Qsum (skipn 0 ns) + nth 0 ns 0)%Q).
  { destruct (Nat.Even_or_Odd (List.length ns)) as [[r Hr] | [r Hr]].
    - apply (pass_squeeze_even (map Fin qs) ns pl eq_refl
               ltac:(rewrite length_map; lia) r eq_refl); simpl; lia.
    - apply (pass_squeeze_odd (map Fin qs) ns pl eq_refl
               ltac:(rewrite length_map; lia) r eq_refl); simpl; lia. }
  destruct Hpass as [Hfin Hsum].
  destruct (totalEm_finite _ Hfin) as [t [Ht Et]].
  exists (drawFrom snoc (map Fin qs) pl (segmentLoop pl) 0 []), t.
  split; [| split; [exact Ht |]].
  - unfold dashBlocks. rewrite renderDash_dashed by (rewrite length_map; exact Hlen).
    rewrite Hplan.
    rewrite (repeatPattern_finite _ _ _ 1) by (simpl; try lia; reflexivity).
    reflexivity.
  - rewrite Et, Hsum. cbn [skipn]. subst ns.
    rewrite Qsum_normalized, first_normalized by (try exact Hnz; lia).
    rewrite Ec. field. lra.
Qed.

Lemma squeeze_fills_one_em_witness :
  2 <= List.length [8%Q; 4%Q; 3%Q]
  /\ Forall (fun q => 0 < q)%Q [8%Q; 4%Q; 3%Q]
  /\ ngt (loopCount (map Fin [8%Q; 4%Q; 3%Q]) (Fin 20)) (Fin 1) = false
  /\ exists blocks t,
       dashBlocks 1 (Some (map Fin [8%Q; 4%Q; 3%Q])) (Fin 20) = Done blocks
       /\ totalEm blocks = Fin t /\ (t == 1)%Q.
Proof.
  assert (Hpos : Forall (fun q => 0 < q)%Q [8%Q; 4%Q; 3%Q])
    by (repeat constructor).
  split; [simpl; lia |]. split; [exact Hpos |]. split; [reflexivity |].
  apply (squeeze_fills_one_em [8%Q; 4%Q; 3%Q] (Fin 20) 0);
    [simpl; lia | exact Hpos | reflexivity].
Defined.

Lemma iter_pass (p : list num) (pl : plan) (n : nat) :
  Forall finiteBlock (drawPattern snoc p pl []) ->
  Forall finiteBlock (Nat.iter n (drawPattern snoc p pl) [])
  /\ (Qsum (map widthOf (Nat.iter n (drawPattern snoc p pl) []))
      == inject_Z (Z.of_nat n) * Qsum (map widthOf (drawPattern snoc p pl [])))%Q.
Proof.
  intros Hpass. induction n as [| n [IHf IHs]].
  - split; [constructor | simpl; ring].
  - rewrite Nat.iter_succ. unfold drawPattern at 1 3. rewrite drawFrom_snoc.
    fold (drawPattern snoc p pl []). split.
    + apply Forall_app. split; assumption.
    + rewrite map_app, Qsum_app, IHs, Nat2Z.inj_succ.
      unfold Z.succ. rewrite inject_Z_plus. ring.
Qed.

(** X3.  In the tile branch a pattern of positive numbers of even length
    is drawn at most one em wide: [n] passes of the period over the budget,
    where [n] periods fit in the budget. *)
Theorem tile_even_within_one_em (qs : list Q) (w : Q) :
  2 <= List.length qs ->
  Nat.Even (List.length qs) ->
  Forall (fun q => 0 < q)%Q qs ->
  ngt (loopCount (map Fin qs) (Fin w)) (Fin 1) = true ->
  exists n blocks t,
    loopCount (map Fin qs) (Fin w) = ofNat n /\ 1 < n
    /\ (forall fuel, n <= fuel -> dashBlocks fuel (Some (map Fin qs)) (Fin w) = Done blocks)
    /\ totalEm blocks = Fin t
    /\ (t * w == inject_Z (Z.of_nat n) * Qsum qs)%Q
    /\ (t <= 1)%Q.
Proof.
  intros Hlen [r Hr] Hpos Hgt.
  destruct (cycleLength_Fin qs) as [c [Hc Ec]]; [lia |].
  destruct (Qsum_positive qs Hpos) as [HS H0]; [lia |].
  assert (Hd : exists d, nsub (strokePixelLengthOf (map Fin qs)) (at_ (map Fin qs) 0) = Fin d
                         /\ (d == Qsum qs)%Q).
  { rewrite Hc, at_map_Fin by lia. eexists. split; [reflexivity |].
    rewrite Qred_correct, Ec. ring. }
  destruct Hd as [d [Hd Ed]].
  assert (Hdpos : (0 < d)%Q) by lra.
  destruct (Qpos_not_zero d Hdpos) as [Hdz Hdnz].
  assert (Hloop : loopCount (map Fin qs) (Fin w) = Fin (inject_Z (Qfloor (Qred (w / d))))).
  { unfold loopCount. rewrite Hd. unfold ndiv. rewrite Hdz. reflexivity. }
  destruct (ngt_one_cases _ Hgt) as [Hinf | [n [Hn H1]]].
  { unfold loopCount in Hinf, Hloop. rewrite Hloop in Hinf. discriminate Hinf. }
  fold (loopCount (map Fin qs) (Fin w)) in Hn.
  assert (Hfloor : Qfloor (Qred (w / d)) = Z.of_nat n).
  { rewrite Hloop in Hn. unfold ofNat, ofZ in Hn. injection Hn as Hn. exact Hn. }
  assert (Hfit : (inject_Z (Z.of_nat n) * d <= w)%Q).
  { pose proof (Qfloor_le (Qred (w / d))) as Hle. rewrite Hfloor, Qred_correct in Hle.
    apply (Qmult_le_compat_r _ _ d) in Hle; [| lra].
    assert (E : (w / d * d == w)%Q) by (field; exact Hdnz).
    rewrite E in Hle. exact Hle. }
  assert (Hn2 : (2 <= inject_Z (Z.of_nat n))%Q).
  { change 2%Q with (inject_Z 2). rewrite <- Zle_Qle. lia. }
  assert (Hwpos : (0 < w)%Q) by nra.
  destruct (Qpos_not_zero w Hwpos) as [Hwz Hwnz].
  set (ns := map (fun q => Qred (q / w)) qs).
  set (pl := Plan (loopCount (map Fin qs) (Fin w)) (map Fin ns) (List.length ns)).
  assert (Hplan : dashPlan (map Fin qs) (Fin w) = pl).
  { rewrite dashPlan_tile by exact Hgt. rewrite normalize_Fin by exact Hwz.
    subst pl ns. rewrite !length_map. reflexivity. }
  assert (Hns : List.length ns = List.length qs) by (subst ns; apply length_map).
  destruct (pass_tile_even (map Fin qs) ns pl eq_refl ltac:(rewrite length_map; lia) r
              eq_refl (segmentLoop pl) 0) as [Hfin Hsum]; [simpl; lia | simpl; lia |].
  destruct (iter_pass (map Fin qs) pl n Hfin) as [Hfins Hsums].
  destruct (totalEm_finite _ Hfins) as [t [Ht Et]].
  exists n, (Nat.iter n (drawPattern snoc (map Fin qs) pl) []), t.
  split; [exact Hn |]. split; [exact H1 |]. split; [| split; [exact Ht |]].
  - intros fuel Hfuel. unfold dashBlocks.
    rewrite renderDash_dashed by (rewrite length_map; exact Hlen).
    rewrite Hplan.
    rewrite (repeatPattern_finite _ _ _ n) by (try lia; exact Hn).
    rewrite Nat.sub_0_r. reflexivity.
  - assert (Etotal : (t == inject_Z (Z.of_nat n) * (Qsum qs / w))%Q).
    { rewrite Et, Hsums. unfold drawPattern. rewrite Hsum. cbn [skipn]. subst ns.
      rewrite Qsum_normalized by exact Hwnz. reflexivity. }
    split.
    + rewrite Etotal. field. exact Hwnz.
    + rewrite Etotal.
      assert (E : (inject_Z (Z.of_nat n) * (Qsum qs / w)
                   == inject_Z (Z.of_nat n) * d / w)%Q) by (rewrite Ed; field; exact Hwnz).
      rewrite E. apply Qle_shift_div_r; [exact Hwpos | lra].
Qed.

Lemma tile_even_within_one_em_witness :
  2 <= List.length [3%Q; 1%Q]
  /\ Nat.Even (List.length [3%Q; 1%Q])
  /\ Forall (fun q => 0 < q)%Q [3%Q; 1%Q]
  /\ ngt (loopCount (map Fin [3%Q; 1%Q]) (Fin 10)) (Fin 1) = true
  /\ exists n blocks t,
       loopCount (map Fin [3%Q; 1%Q]) (Fin 10) = ofNat n
       /\ (forall fuel, n <= fuel ->
             dashBlocks fuel (Some (map Fin [3%Q; 1%Q])) (Fin 10) = Done blocks)
       /\ totalEm blocks = Fin t /\ (t <= 1)%Q.
Proof.
  assert (Hpos : Forall (fun q => 0 < q)%Q [3%Q; 1%Q]) by (repeat constructor).
  assert (Heven : Nat.Even (List.length [3%Q; 1%Q])) by (exists 1; reflexivity).
  split; [simpl; lia |]. split; [exact Heven |]. split; [exact Hpos |].
  split; [reflexivity |].
  destruct (tile_even_within_one_em [3%Q; 1%Q] 10) as [n [blocks [t H]]];
    [simpl; lia | exact Heven | exact Hpos | reflexivity |].
  destruct H as [Hn [_ [Hb [Ht [_ Hle]]]]].
  exists n, blocks, t. repeat split; assumption.
Defined.

(* ================================================================== *)
(** ** The tile branch, pass by pass *)

Lemma half_spec (L k : nat) : 2 * k < L <-> k < (L + 1) / 2.
Proof.
  pose proof (Nat.div_mod_eq (L + 1) 2) as E.
  pose proof (Nat.mod_upper_bound (L + 1) 2) as B.
  lia.
Qed.

(** The inner loop visits the even indices below [segmentLoop], in order,
    and emits the block of each. *)
Lemma drawFrom_evens (p : list num) (pl : plan) (n k : nat) (acc : list block) :
  segmentLoop pl <= 2 * k + 2 * n ->
  drawFrom snoc p pl n (2 * k) acc
  = (acc ++ map (fun j => segment p pl (2 * j))
              (seq k ((segmentLoop pl + 1) / 2 - k)))%list.
Proof.
  revert k acc. induction n as [| n IH]; intros k acc Hn; cbn [drawFrom].
  - assert (H : (segmentLoop pl + 1) / 2 - k = 0).
    { pose proof (half_spec (segmentLoop pl) k). lia. }
    rewrite H. cbn. rewrite app_nil_r. reflexivity.
  - destruct (Nat.ltb_spec (2 * k) (segmentLoop pl)) as [Hlt | Hge].
    + replace (2 * k + 2) with (2 * S k) by lia. rewrite IH by lia.
      apply half_spec in Hlt.
      replace ((segmentLoop pl + 1) / 2 - k) with (S ((segmentLoop pl + 1) / 2 - S k)) by lia.
      cbn [seq map]. unfold snoc. rewrite <- app_assoc. reflexivity.
    + assert (H : (segmentLoop pl + 1) / 2 - k = 0).
      { pose proof (half_spec (segmentLoop pl) k). lia. }
      rewrite H. cbn. rewrite app_nil_r. reflexivity.
Qed.

(** One pass of the source's inner loop appends the specification's pass. *)
Lemma drawPattern_specPass (p : list num) (pl : plan) (acc : list block) :
  List.length p = List.length (normalizedPattern pl) ->
  drawPattern snoc p pl acc
  = (acc ++ specPass (normalizedPattern pl) (segmentLoop pl))%list.
Proof.
  intros Hlen. unfold drawPattern.
  pose proof (drawFrom_evens p pl (segmentLoop pl) 0 acc) as H.
  change (2 * 0) with 0 in H. rewrite H by lia.
  rewrite Nat.sub_0_r. unfold specPass, segment. rewrite Hlen. reflexivity.
Qed.

Lemma iter_append_repeat {B : Type} (pass : list B) (n : nat) :
  Nat.iter n (fun acc => (acc ++ pass)%list) [] = List.concat (repeat pass n).
Proof.
  induction n as [| n IH]; [reflexivity |].
  rewrite Nat.iter_succ, IH.
  change (repeat pass (S n)) with (pass :: repeat pass n).
  rewrite repeat_cons, List.concat_app. cbn. rewrite app_nil_r. reflexivity.
Qed.

Lemma iter_specPass (p : list num) (pl : plan) (n : nat) :
  List.length p = List.length (normalizedPattern pl) ->
  Nat.iter n (drawPattern snoc p pl) []
  = List.concat (repeat (specPass (normalizedPattern pl) (segmentLoop pl)) n).
Proof.
  intros Hlen. rewrite <- iter_append_repeat.
  induction n as [| n IH]; [reflexivity |].
  rewrite !Nat.iter_succ, IH. apply drawPattern_specPass. exact Hlen.
Qed.

(** C4.  For a pattern of at least two elements the renderer computes
    [cycleLength] as the sum of all elements plus the first one again, sets
    [loop] to [floor(budget / (cycleLength - pattern[0]))], and when that
    exceeds 1 it divides every element by the budget, keeps [segmentLoop] at
    the pattern's length (no repeated first segment) and emits [loop]
    repetitions: with any fuel of at least [loop] the blocks returned are
    [loop] times the specification's pass over the elements divided by the
    budget (drawn and gap at the indices 0, 2, 4, ... below the pattern's
    length), and the markup is one [div] for each of them, in order.  When
    [loop] is infinite the repetitions do not end and no fragment is
    returned. *)
Theorem tile_branch_plan (numToString : num -> string) (pattern : list num)
    (oneEmWidth : num) (color : string) :
  2 <= List.length pattern ->
  strokePixelLengthOf pattern = cycleLength pattern
  /\ loopCount pattern oneEmWidth
     = nfloor (ndiv oneEmWidth (nsub (cycleLength pattern) (at_ pattern 0)))
  /\ (ngt (loopCount pattern oneEmWidth) (Fin 1) = true ->
      dashPlan pattern oneEmWidth
      = Plan (loopCount pattern oneEmWidth)
             (map (fun s => ndiv s oneEmWidth) pattern)
             (List.length pattern)
      /\ ((loopCount pattern oneEmWidth = PInf
           /\ forall fuel,
               generateTooltipDashHTML numToString fuel (Some pattern) color oneEmWidth
               = OutOfFuel)
          \/ (exists n : nat,
               loopCount pattern oneEmWidth = ofNat n /\ 1 < n
               /\ forall fuel, n <= fuel ->
                   dashBlocks fuel (Some pattern) oneEmWidth
                   = Done (List.concat
                             (repeat (specPass (map (fun s => ndiv s oneEmWidth) pattern)
                                        (List.length pattern)) n))
                   /\ generateTooltipDashHTML numToString fuel (Some pattern) color
                        oneEmWidth
                      = Done (String.concat ""
                                (map (blockHTML numToString color)
                                   (List.concat
                                      (repeat
                                         (specPass (map (fun s => ndiv s oneEmWidth) pattern)
                                            (List.length pattern)) n))))))).
Proof.
  intros Hlen.
  assert (Hcyc : strokePixelLengthOf pattern = cycleLength pattern)
    by (apply strokePixelLength_cycleLength; lia).
  split; [exact Hcyc |]. split.
  { unfold loopCount. rewrite Hcyc. reflexivity. }
  intros Hgt.
  assert (Hplan : dashPlan pattern oneEmWidth
                  = Plan (loopCount pattern oneEmWidth)
                         (map (fun s => ndiv s oneEmWidth) pattern) (List.length pattern))
    by (apply dashPlan_tile; exact Hgt).
  split; [exact Hplan |].
  destruct (ngt_one_cases _ Hgt) as [Hinf | [n [Hn H1]]].
  - left. split; [exact Hinf |]. intros fuel. unfold generateTooltipDashHTML.
    rewrite renderDash_dashed by exact Hlen.
    apply repeatPattern_infinite. rewrite Hplan. exact Hinf.
  - right. exists n. split; [exact Hn |]. split; [exact H1 |].
    intros fuel Hfuel.
    assert (Hblocks : dashBlocks fuel (Some pattern) oneEmWidth
                      = Done (List.concat
                                (repeat (specPass (map (fun s => ndiv s oneEmWidth) pattern)
                                           (List.length pattern)) n))).
    { unfold dashBlocks. rewrite renderDash_dashed by exact Hlen.
      rewrite (repeatPattern_finite _ _ _ n) by (try lia; rewrite Hplan; exact Hn).
      rewrite Nat.sub_0_r, Hplan.
      rewrite iter_specPass by (cbn [normalizedPattern]; rewrite length_map; reflexivity).
      reflexivity. }
    split; [exact Hblocks |].
    rewrite dash_markup_of_blocks by exact Hlen. rewrite Hblocks. reflexivity.
Qed.

(** The pattern [[1,1]] with the budget 10: five passes of one block each,
    0.1em drawn and 0.1em gap. *)
Lemma tile_branch_plan_witness :
  2 <= List.length [Fin 1; Fin 1]
  /\ loopCount [Fin 1; Fin 1] (Fin 10) = Fin 5
  /\ dashPlan [Fin 1; Fin 1] (Fin 10) = Plan (Fin 5) [Fin (1 # 10); Fin (1 # 10)] 2
  /\ dashBlocks 5 (Some [Fin 1; Fin 1]) (Fin 10)
     = Done [Block (Fin (1 # 10)) (Fin (1 # 10)); Block (Fin (1 # 10)) (Fin (1 # 10));
             Block (Fin (1 # 10)) (Fin (1 # 10)); Block (Fin (1 # 10)) (Fin (1 # 10));
             Block (Fin (1 # 10)) (Fin (1 # 10))]
  /\ generateTooltipDashHTML decimalString 5 (Some [Fin 1; Fin 1]) "#f00" (Fin 10)
     = Done (String.concat ""
               (repeat ("<div style=" ++ DQ
                        ++ "display: inline-block; position: relative; bottom: .5ex; "
                        ++ "margin-right: 0.1em; padding-left: 0.1em; height: 1px; "
                        ++ "border-bottom: 2px solid #f00;" ++ DQ ++ "></div>") 5)).
Proof.
  split; [simpl; lia |].
  destruct (tile_branch_plan decimalString [Fin 1; Fin 1] (Fin 10) "#f00")
    as [_ [Hloop Htile]]; [simpl; lia |].
  split; [rewrite Hloop; reflexivity |].
  destruct Htile as [Hplan [[Hinf _] | [n [Hn [_ Hout]]]]]; [reflexivity | discriminate Hinf |].
  split; [rewrite Hplan; reflexivity |].
  assert (En : n = 5).
  { unfold ofNat, ofZ in Hn. injection Hn as Hn. change (5%Z = Z.of_nat n) in Hn. lia. }
  subst n. destruct (Hout 5 (le_n 5)) as [Hblocks Hhtml].
  split; [rewrite Hblocks | rewrite Hhtml]; reflexivity.
Defined.

(* ================================================================== *)
(** ** [escapeHTML] *)

Lemma replaceAll_app (c : ascii) (r s t : string) :
  replaceAll c r (s ++ t) = replaceAll c r s ++ replaceAll c r t.
Proof.
  induction s as [| d s IH]; simpl; [reflexivity |].
  destruct (Ascii.eqb d c); rewrite IH; [rewrite append_assoc |]; reflexivity.
Qed.

(** The replacements never meet each other's output: the chain is one pass
    over the characters. *)
Lemma escapeHTML_cons (c : ascii) (s : string) :
  escapeHTML (String c s) = escapeChar c ++ escapeHTML s.
Proof.
  unfold escapeHTML, escapeChar.
  cbn [replaceAll].
  destruct (Ascii.eqb c "&") eqn:E1.
  { rewrite !replaceAll_app. reflexivity. }
  cbn [replaceAll].
  destruct (Ascii.eqb c dquote) eqn:E2.
  { rewrite !replaceAll_app. reflexivity. }
  cbn [replaceAll].
  destruct (Ascii.eqb c "<") eqn:E3.
  { rewrite !replaceAll_app. reflexivity. }
  cbn [replaceAll].
  destruct (Ascii.eqb c ">") eqn:E4; reflexivity.
Qed.

Lemma prefix_empty (t : string) : String.prefix "" t = true.
Proof. destruct t; reflexivity. Qed.



(** The four characters, each replaced once. *)
Lemma escapeHTML_example :
  escapeHTML ("a<b & " ++ DQ ++ "c" ++ DQ ++ " > d") = "a&lt;b &amp; &quot;c&quot; &gt; d".
Proof. reflexivity. Qed.

(* ================================================================== *)
(** ** Properties of the fragment generator *)

Lemma forEach_skip {A B : Type} (body : B -> A -> outcome B) (l1 l2 : list A) (a : A) (acc : B) :
  (forall acc', body acc' a = Done acc') ->
  forEach body (l1 ++ a :: l2) acc = forEach body (l1 ++ l2) acc.
Proof.
  intros Hskip. rewrite !forEach_app. simpl.
  destruct (forEach body l1 acc); simpl; auto.
  rewrite Hskip. reflexivity.
Qed.


Section GeneratorFacts.

Variable numToString : num -> string.
Variable isOK : num -> bool.

(** A point stopped by one of the two guards leaves [html] as it is. *)
Lemma selectedLine_zero_suppressed (g : Dygraph) (views : list optionsView)
    (row : option nat) (html : fragment) (pt : point) :
  nzero (yval pt) = true -> labelsShowZeroValues g = false ->
  selectedLine isOK g views row html pt = Done html.
Proof. intros Hz Hs. unfold selectedLine. rewrite Hz, Hs. reflexivity. Qed.

Lemma selectedLine_not_OK (g : Dygraph) (views : list optionsView)
    (row : option nat) (html : fragment) (pt : point) :
  isOK (canvasy pt) = false ->
  selectedLine isOK g views row html pt = Done html.
Proof.
  intros H. unfold selectedLine. rewrite H.
  destruct (nzero (yval pt) && negb (labelsShowZeroValues g)); reflexivity.
Qed.

(** A point that passes both guards appends its legend line. *)
Lemma selectedLine_shown (g : Dygraph) (views : list optionsView) (view : optionsView)
    (row : option nat) (html : fragment) (pt : point) :
  nzero (yval pt) && negb (labelsShowZeroValues g) = false ->
  isOK (canvasy pt) = true ->
  yOptViewOf views (getPropertiesForSeries g (name pt)) = Some view ->
  selectedLine isOK g views row html pt = Done (html ++ legendLine g view row pt)%list.
Proof. intros Hz Hok Hv. unfold selectedLine. rewrite Hz, Hok, Hv. reflexivity. Qed.

(** Dropping from the selection a point that a guard stops changes
    nothing. *)
Lemma generate_skip (fuel : nat) (g : Dygraph) (x : option num)
    (pts1 pts2 : list point) (pt : point) (w : num) (row : option nat) :
  (forall views html, selectedLine isOK g views row html pt = Done html) ->
  generateTooltipHTML numToString isOK fuel g x (Some (pts1 ++ pt :: pts2)%list) w row
  = generateTooltipHTML numToString isOK fuel g x (Some (pts1 ++ pts2)%list) w row.
Proof.
  intros Hskip. unfold generateTooltipHTML, generateTooltipFragment.
  destruct (negb (showLabelsOnHighlight g)); [reflexivity |].
  destruct x as [xv |]; [| reflexivity].
  rewrite forEach_skip by (intros; apply Hskip). reflexivity.
Qed.

(** C10.  A selected point whose [canvasy] fails [Dygraph.isOK] adds
    nothing to the fragment, whatever its value and whatever
    [labelsShowZeroValues] says: the loop body returns [html] unchanged, and
    the fragment is the one generated without the point. *)
Theorem invalid_canvasy_no_legend_line (fuel : nat) (g : Dygraph) (x : option num)
    (pts1 pts2 : list point) (pt : point) (oneEmWidth : num) (row : option nat) :
  isOK (canvasy pt) = false ->
  (forall views html, selectedLine isOK g views row html pt = Done html)
  /\ generateTooltipHTML numToString isOK fuel g x (Some (pts1 ++ pt :: pts2)%list)
       oneEmWidth row
     = generateTooltipHTML numToString isOK fuel g x (Some (pts1 ++ pts2)%list)
         oneEmWidth row.
Proof.
  intros H.
  assert (Hskip : forall views html, selectedLine isOK g views row html pt = Done html)
    by (intros; apply selectedLine_not_OK; exact H).
  split; [exact Hskip | apply generate_skip; exact Hskip].
Qed.

End GeneratorFacts.

Lemma invalid_canvasy_no_legend_line_witness :
  isFiniteNumber (canvasy (samplePoint (Fin 7) NaN)) = false
  /\ labelsShowZeroValues (sampleChart plainFormatter true) = true
  /\ nzero (yval (samplePoint (Fin 7) NaN)) = false
  /\ generateTooltipHTML decimalString isFiniteNumber 0 (sampleChart plainFormatter true)
       (Some (Fin 3)) (Some [samplePoint (Fin 7) NaN]) (Fin 10) None
     = Done "3:".
Proof.
  split; [reflexivity |]. split; [reflexivity |]. split; [reflexivity |].
  pose proof (proj2 (invalid_canvasy_no_legend_line decimalString isFiniteNumber 0
                       (sampleChart plainFormatter true) (Some (Fin 3)) [] []
                       (samplePoint (Fin 7) NaN) (Fin 10) None eq_refl)) as H.
  cbn [app] in H. rewrite H. reflexivity.
Defined.

(** C8 as stated fails: with [labelsShowZeroValues] enabled, a selected
    point of value 0 whose [canvasy] is not a number is stopped by the
    second guard and gets no legend line. *)
Lemma zero_shown_unless_canvasy_invalid :
  labelsShowZeroValues (sampleChart plainFormatter true) = true
  /\ nzero (yval (samplePoint (Fin 0) NaN)) = true
  /\ generateTooltipHTML decimalString isFiniteNumber 0 (sampleChart plainFormatter true)
       (Some (Fin 3)) (Some [samplePoint (Fin 0) NaN]) (Fin 10) None
     = Done "3:"
  /\ generateTooltipHTML decimalString isFiniteNumber 0 (sampleChart plainFormatter true)
       (Some (Fin 3)) (Some []) (Fin 10) None
     = Done "3:".
Proof. repeat split; reflexivity. Qed.

(** C8, amended.  With a selection present, a selected point of value
    exactly 0 gets no legend line when [labelsShowZeroValues] is disabled:
    the fragment is the one generated without the point.  When it is
    enabled (and labels are shown on highlight), the point gets its legend
    line provided its [canvasy] passes [Dygraph.isOK] and its series' axis
    has an options view: the fragment up to the point is the fragment of the
    points before it followed by the point's line. *)
Theorem zero_value_legend_line (numToString : num -> string) (isOK : num -> bool)
    (fuel : nat) (g : Dygraph) (xv : num) (pts1 pts2 : list point) (pt : point)
    (oneEmWidth : num) (row : option nat) :
  nzero (yval pt) = true ->
  (labelsShowZeroValues g = false ->
     (forall views html, selectedLine isOK g views row html pt = Done html)
     /\ generateTooltipHTML numToString isOK fuel g (Some xv)
          (Some (pts1 ++ pt :: pts2)%list) oneEmWidth row
        = generateTooltipHTML numToString isOK fuel g (Some xv)
            (Some (pts1 ++ pts2)%list) oneEmWidth row)
  /\ (labelsShowZeroValues g = true ->
      showLabelsOnHighlight g = true ->
      isOK (canvasy pt) = true ->
      forall view,
        yOptViewOf (yOptViewsOf g) (getPropertiesForSeries g (name pt)) = Some view ->
        generateTooltipFragment numToString isOK fuel g (Some xv)
          (Some (pts1 ++ pt :: pts2)%list) oneEmWidth row
        = (h1 <- generateTooltipFragment numToString isOK fuel g (Some xv) (Some pts1)
                   oneEmWidth row ;;
           forEach (selectedLine isOK g (yOptViewsOf g) row) pts2
             (h1 ++ legendLine g view row pt)%list)).
Proof.
  intros Hz. split.
  - intros Hs.
    assert (Hskip : forall views html, selectedLine isOK g views row html pt = Done html)
      by (intros; apply selectedLine_zero_suppressed; assumption).
    split; [exact Hskip | apply generate_skip; exact Hskip].
  - intros Hs Hshow Hok view Hview. unfold generateTooltipFragment.
    rewrite Hshow. cbn [negb].
    rewrite forEach_app.
    destruct (forEach (selectedLine isOK g (yOptViewsOf g) row) pts1
                (selectionHeader g xv row)) as [h1 | |]; cbn [obind forEach]; try reflexivity.
    rewrite (selectedLine_shown isOK g _ view) by (try assumption; rewrite Hs; apply andb_false_r).
    reflexivity.
Qed.

Lemma zero_value_legend_line_witness :
  nzero (yval (samplePoint (Fin 0) (Fin 120))) = true
  /\ generateTooltipHTML decimalString isFiniteNumber 0 (sampleChart plainFormatter false)
       (Some (Fin 3)) (Some [samplePoint (Fin 0) (Fin 120)]) (Fin 10) None
     = Done "3:"
  /\ generateTooltipHTML decimalString isFiniteNumber 0 (sampleChart plainFormatter true)
       (Some (Fin 3)) (Some [samplePoint (Fin 0) (Fin 120)]) (Fin 10) None
     = Done "3:<br/><span> <b><span style='color: #f00;'>A&lt;B</span></b>:&#160;0</span>".
Proof.
  split; [reflexivity |].
  split.
  - pose proof (proj2 (proj1 (zero_value_legend_line decimalString isFiniteNumber 0
                  (sampleChart plainFormatter false) (Fin 3) [] []
                  (samplePoint (Fin 0) (Fin 120)) (Fin 10) None eq_refl) eq_refl)) as H.
    cbn [app] in H. rewrite H. reflexivity.
  - pose proof (proj2 (zero_value_legend_line decimalString isFiniteNumber 0
                  (sampleChart plainFormatter true) (Fin 3) [] []
                  (samplePoint (Fin 0) (Fin 120)) (Fin 10) None eq_refl)
                  eq_refl eq_refl eq_refl {| valueFormatter := plainFormatter |} eq_refl) as H.
    cbn [app] in H. unfold generateTooltipHTML. rewrite H. reflexivity.
Defined.

(* ================================================================== *)
(** ** Escaping in the fragment *)


Lemma flatten_app (h1 h2 : fragment) :
  flatten (h1 ++ h2)%list = flatten h1 ++ flatten h2.
Proof.
  unfold flatten. induction h1 as [| p h1 IH]; [reflexivity |].
  cbn [app map]. destruct h1 as [| q h1].
  - cbn [app map String.concat]. destruct h2 as [| r h2]; cbn [map String.concat].
    + rewrite append_empty_r. reflexivity.
    + reflexivity.
  - cbn [app map String.concat] in *. rewrite IH, append_assoc. reflexivity.
Qed.

Section EscapingFacts.

Variable numToString : num -> string.
Variable isOK : num -> bool.





End EscapingFacts.



(* ================================================================== *)
(** ** The handlers and the cached em width *)

Lemma keeps_hret {A : Type} (a : A) : keepsEmWidth (hret a).
Proof. intros this. reflexivity. Qed.

Lemma keeps_hlift {A : Type} (m : outcome A) : keepsEmWidth (hlift m).
Proof. intros this. reflexivity. Qed.

Lemma keeps_getThis : keepsEmWidth getThis.
Proof. intros this. reflexivity. Qed.

Lemma keeps_hbind {A B : Type} (m : handler A) (f : A -> handler B) :
  keepsEmWidth m -> (forall a, keepsEmWidth (f a)) -> keepsEmWidth (hbind m f).
Proof.
  intros Hm Hf this. unfold hbind. specialize (Hm this).
  destruct (m this) as [[a | |] this']; simpl in *; try exact Hm.
  rewrite Hf. exact Hm.
Qed.

Lemma keeps_updateDiv (f : element -> element) : keepsEmWidth (updateDiv f).
Proof. intros this. unfold updateDiv. destruct (tooltip_div_ this); reflexivity. Qed.

Create HintDb em_width.

#[local] Hint Resolve keeps_hret keeps_hlift keeps_getThis keeps_updateDiv : em_width.
#[local] Hint Extern 2 (keepsEmWidth (hbind _ _)) => apply keeps_hbind; [| intro] : em_width.
#[local] Hint Unfold setDisplay setLeft setTop setWidth setInnerHTML appendToGraphDiv
  updateStyle : em_width.

Section HandlerFacts.

Variable numToString : num -> string.
Variable isOK : num -> bool.
Variable offsetWidth : element -> num.

Lemma keeps_follow (e : event) : keepsEmWidth (follow numToString e).
Proof.
  unfold follow. destruct (selectedPoints e) as [[| p0 pts] |];
    autounfold with em_width; auto 10 with em_width.
Qed.

Lemma keeps_select (fuel : nat) (e : event) :
  keepsEmWidth (select numToString isOK fuel e).
Proof.
  unfold select. destruct (String.eqb (tooltipOption (dygraph e)) "never").
  - autounfold with em_width; auto with em_width.
  - apply keeps_hbind; [destruct (String.eqb _ "follow");
                         [apply keeps_follow | apply keeps_hret] |].
    intros _. autounfold with em_width; auto 10 with em_width.
Qed.

Lemma keeps_predraw (e : event) : keepsEmWidth (predraw numToString e).
Proof.
  unfold predraw. apply keeps_hbind; [apply keeps_getThis |].
  intros this. destruct (negb (is_generated_div_ this));
    autounfold with em_width; auto 10 with em_width.
Qed.

(** What [select] writes into the div is the fragment generated for the
    cached width. *)
Lemma select_content (fuel : nat) (e : event) (this : tooltip) :
  String.eqb (tooltipOption (dygraph e)) "never" = false ->
  fst (select numToString isOK fuel e this) = Done tt ->
  exists html div,
    generateTooltipHTML numToString isOK fuel (dygraph e) (selectedX e) (selectedPoints e)
      (one_em_width_ this) (selectedRow e) = Done html
    /\ tooltip_div_ (snd (select numToString isOK fuel e this)) = Some div
    /\ innerHTML div = html.
Proof.
  intros Hmode.
  remember (select numToString isOK fuel e this) as r eqn:Er.
  unfold select in Er. rewrite Hmode in Er.
  set (first := if String.eqb (tooltipOption (dygraph e)) "follow"
                then follow numToString e else hret tt) in Er.
  assert (Hfirst : keepsEmWidth first).
  { subst first. destruct (String.eqb _ "follow"); [apply keeps_follow | apply keeps_hret]. }
  specialize (Hfirst this).
  unfold hbind, getThis, hlift in Er.
  destruct (first this) as [[[] | |] this1]; cbn [fst snd] in *;
    [| subst r; discriminate | subst r; discriminate].
  rewrite Hfirst in Er.
  destruct (generateTooltipHTML numToString isOK fuel (dygraph e) (selectedX e)
              (selectedPoints e) (one_em_width_ this) (selectedRow e)) as [html | |];
    [| subst r; discriminate | subst r; discriminate].
  unfold setInnerHTML, setDisplay, updateStyle, updateDiv in Er.
  destruct (tooltip_div_ this1) as [div |]; cbn in Er; subst r; cbn;
    [| discriminate].
  intros _. eexists _, _. split; [reflexivity |]. split; reflexivity.
Qed.

(** C9.  [select] never measures: it leaves [one_em_width_] as it is and
    generates the fragment with the stored value, which is what it writes
    into the div; so do [predraw] and [destroy] leave the field alone.
    [deselect] (and [didDrawChart], which calls it) stores the width the
    layout engine measures in the div. *)
Theorem em_width_recomputed_on_deselect_only (fuel : nat) (e : event) (this : tooltip) :
  one_em_width_ (snd (select numToString isOK fuel e this)) = one_em_width_ this
  /\ (String.eqb (tooltipOption (dygraph e)) "never" = false ->
      fst (select numToString isOK fuel e this) = Done tt ->
      exists html div,
        generateTooltipHTML numToString isOK fuel (dygraph e) (selectedX e)
          (selectedPoints e) (one_em_width_ this) (selectedRow e) = Done html
        /\ tooltip_div_ (snd (select numToString isOK fuel e this)) = Some div
        /\ innerHTML div = html)
  /\ (forall div, tooltip_div_ this = Some div ->
        one_em_width_ (snd (deselect numToString isOK offsetWidth fuel e this))
        = offsetWidth div
        /\ one_em_width_ (snd (didDrawChart numToString isOK offsetWidth fuel e this))
           = offsetWidth div)
  /\ one_em_width_ (snd (predraw numToString e this)) = one_em_width_ this
  /\ one_em_width_ (snd (destroy this)) = one_em_width_ this.
Proof.
  split; [apply keeps_select |].
  split; [apply select_content |].
  split; [| split; [apply keeps_predraw | reflexivity]].
  intros div Hdiv.
  assert (H : one_em_width_ (snd (deselect numToString isOK offsetWidth fuel e this))
              = offsetWidth div).
  { unfold deselect, hbind, getThis, hlift, calculateEmWidthInDiv, setOneEmWidth.
    rewrite Hdiv. cbn.
    destruct (generateTooltipHTML numToString isOK fuel (dygraph e) None None
                (offsetWidth div) None); cbn; reflexivity. }
  split; [exact H | exact H].
Qed.

End HandlerFacts.

(** A selection and a deselection on a tooltip whose cached width is 10,
    in a div where one em measures 14 pixels. *)
Lemma em_width_recomputed_on_deselect_only_witness :
  one_em_width_ (snd (select decimalString isFiniteNumber 1 sampleEvent sampleTooltip))
  = Fin 10
  /\ one_em_width_
       (snd (deselect decimalString isFiniteNumber (fun _ => Fin 14) 1 sampleEvent
               sampleTooltip))
     = Fin 14
  /\ option_map innerHTML
       (tooltip_div_ (snd (select decimalString isFiniteNumber 1 sampleEvent sampleTooltip)))
     = Some "3:<br/><span> <b><span style='color: #f00;'>A&lt;B</span></b>:&#160;7</span>".
Proof.
  destruct (em_width_recomputed_on_deselect_only decimalString isFiniteNumber
              (fun _ => Fin 14) 1 sampleEvent sampleTooltip) as [Hsel [_ [Hdes _]]].
  split; [rewrite Hsel; reflexivity |].
  split; [apply (Hdes sampleDiv eq_refl) | reflexivity].
Defined.

(* ================================================================== *)
(** ** Further properties of [escapeHTML] *)

Lemma length_append (s t : string) :
  String.length (s ++ t) = String.length s + String.length t.
Proof. induction s as [| c s IH]; simpl; [reflexivity | rewrite IH; reflexivity]. Qed.

Lemma escapeHTML_empty : escapeHTML "" = "".
Proof. reflexivity. Qed.

Lemma unescapeFrom_escapeChar (c : ascii) (t : string) :
  unescapeFrom 0 (escapeChar c ++ t) = String c (unescapeFrom 0 t).
Proof.
  unfold escapeChar.
  destruct (Ascii.eqb c "&") eqn:E1.
  { apply Ascii.eqb_eq in E1. subst c. cbn. rewrite prefix_empty. reflexivity. }
  destruct (Ascii.eqb c dquote) eqn:E2.
  { apply Ascii.eqb_eq in E2. subst c. cbn. rewrite prefix_empty. reflexivity. }
  destruct (Ascii.eqb c "<") eqn:E3.
  { apply Ascii.eqb_eq in E3. subst c. cbn. rewrite prefix_empty. reflexivity. }
  destruct (Ascii.eqb c ">") eqn:E4.
  { apply Ascii.eqb_eq in E4. subst c. cbn. rewrite prefix_empty. reflexivity. }
  cbn [append unescapeFrom]. rewrite E1. reflexivity.
Qed.

Lemma unescape_escape (s : string) : unescapeHTML (escapeHTML s) = s.
Proof.
  unfold unescapeHTML. induction s as [| c s IH]; [reflexivity |].
  rewrite escapeHTML_cons, unescapeFrom_escapeChar, IH. reflexivity.
Qed.

(** X4.  [escapeHTML] loses nothing: reading the four character references
    back gives the string that was escaped, so two different strings never
    have the same escape. *)
Theorem escapeHTML_round_trip (s1 s2 : string) :
  unescapeHTML (escapeHTML s1) = s1
  /\ (escapeHTML s1 = escapeHTML s2 <-> s1 = s2).
Proof.
  split; [apply unescape_escape |]. split.
  - intros H. rewrite <- (unescape_escape s1), <- (unescape_escape s2), H. reflexivity.
  - intros ->. reflexivity.
Qed.

(** X5.  [escapeHTML] works character by character: the escape of a
    concatenation is the concatenation of the escapes, although it is
    written as four successive replacements over the whole string. *)
Theorem escapeHTML_append (s t : string) :
  escapeHTML (s ++ t) = escapeHTML s ++ escapeHTML t.
Proof.
  induction s as [| c s IH]; [reflexivity |].
  cbn [append]. rewrite !escapeHTML_cons, IH, append_assoc. reflexivity.
Qed.

Lemma escapeChar_plain (c : ascii) :
  isMarkupChar c = false -> escapeChar c = String c "".
Proof.
  unfold isMarkupChar, escapeChar. intros H.
  destruct (Ascii.eqb c "&"); [discriminate |].
  destruct (Ascii.eqb c dquote); [discriminate |].
  destruct (Ascii.eqb c "<"); [discriminate |].
  destruct (Ascii.eqb c ">"); [discriminate | reflexivity].
Qed.

Lemma escapeChar_markup (c : ascii) :
  isMarkupChar c = true ->
  exists r, escapeChar c = String "&" r /\ 3 <= String.length r /\ plain r = true.
Proof.
  unfold isMarkupChar, escapeChar. intros H.
  destruct (Ascii.eqb c "&"); [eexists; repeat split; simpl; lia |].
  destruct (Ascii.eqb c dquote); [eexists; repeat split; simpl; lia |].
  destruct (Ascii.eqb c "<"); [eexists; repeat split; simpl; lia |].
  destruct (Ascii.eqb c ">"); [eexists; repeat split; simpl; lia | discriminate].
Qed.

Lemma escapeHTML_grows (s : string) : String.length s <= String.length (escapeHTML s).
Proof.
  induction s as [| c s IH]; [simpl; lia |].
  rewrite escapeHTML_cons, length_append. cbn [String.length].
  destruct (isMarkupChar c) eqn:E.
  - destruct (escapeChar_markup c E) as [r [-> [Hr _]]]. cbn [String.length]. lia.
  - rewrite (escapeChar_plain c E). cbn [String.length]. lia.
Qed.

Lemma plain_escapeHTML (s : string) : plain (escapeHTML s) = plain s.
Proof.
  induction s as [| c s IH]; [reflexivity |].
  rewrite escapeHTML_cons. cbn [plain].
  destruct (isMarkupChar c) eqn:E.
  - destruct (escapeChar_markup c E) as [r [-> _]]. reflexivity.
  - rewrite (escapeChar_plain c E). cbn [append plain]. rewrite E, IH. reflexivity.
Qed.

(** X6.  A string without [&], double quote, [<] and [>] is returned as it
    is; any other string comes back strictly longer and still holds a [&],
    so that escaping an escaped string escapes it again: [escapeHTML] is
    idempotent on the plain strings only. *)
Theorem escapeHTML_plain_or_longer (s : string) :
  (plain s = true -> escapeHTML s = s)
  /\ (plain s = false ->
      String.length s < String.length (escapeHTML s)
      /\ plain (escapeHTML s) = false
      /\ escapeHTML (escapeHTML s) <> escapeHTML s).
Proof.
  assert (Hplain : forall t, plain t = true -> escapeHTML t = t).
  { induction t as [| c t IH]; [reflexivity |].
    cbn [plain]. intros H. apply andb_true_iff in H. destruct H as [Hc Ht].
    apply negb_true_iff in Hc.
    rewrite escapeHTML_cons, (escapeChar_plain c Hc), (IH Ht). reflexivity. }
  assert (Hlonger : forall t, plain t = false ->
                      String.length t < String.length (escapeHTML t)).
  { induction t as [| c t IH]; [discriminate |].
    cbn [plain]. intros H. rewrite escapeHTML_cons, length_append. cbn [String.length].
    destruct (isMarkupChar c) eqn:E.
    - destruct (escapeChar_markup c E) as [r [-> [Hr _]]]. cbn [String.length].
      pose proof (escapeHTML_grows t). lia.
    - rewrite (escapeChar_plain c E). cbn [String.length].
      cbn [negb andb] in H. specialize (IH H). lia. }
  split; [apply Hplain |]. intros H.
  split; [apply Hlonger; exact H |].
  split; [rewrite plain_escapeHTML; exact H |].
  intros E. assert (Hp : plain (escapeHTML s) = false) by (rewrite plain_escapeHTML; exact H).
  apply Hlonger in Hp. rewrite E in Hp. lia.
Qed.

(* ================================================================== *)
(** ** Further properties of the dash renderer *)

Section RepeatFacts.

Context {A : Type} (emit : A -> block -> A).
Variable strokePattern : list num.
Variable pl : plan.

(** The drawing loops throw nothing. *)
Lemma repeatPattern_no_raise (fuel j : nat) (dash : A) :
  repeatPattern emit strokePattern pl fuel j dash <> Raise.
Proof.
  revert j dash. induction fuel as [| fuel IH]; intros j dash;
    rewrite repeatPattern_eq; destruct (nlt (ofNat j) (loop pl)); try discriminate.
  apply IH.
Qed.

(** More fuel never changes a result. *)
Lemma repeatPattern_more_fuel (fuel k j : nat) (dash r : A) :
  repeatPattern emit strokePattern pl fuel j dash = Done r ->
  repeatPattern emit strokePattern pl (fuel + k) j dash = Done r.
Proof.
  revert j dash. induction fuel as [| fuel IH]; intros j dash;
    rewrite (repeatPattern_eq _ _ _ (_ + k)), repeatPattern_eq;
    destruct (nlt (ofNat j) (loop pl)); try discriminate; try (intros H; exact H).
  cbn [Nat.add]. apply IH.
Qed.

(** A result came after exactly [loop] passes. *)
Lemma repeatPattern_done (n fuel : nat) (dash r : A) :
  loop pl = ofNat n ->
  repeatPattern emit strokePattern pl fuel 0 dash = Done r ->
  r = Nat.iter n (drawPattern emit strokePattern pl) dash.
Proof.
  intros Hn H. apply (repeatPattern_more_fuel _ n) in H.
  rewrite (repeatPattern_finite _ _ _ n Hn) in H by lia.
  rewrite Nat.sub_0_r in H. injection H as <-. reflexivity.
Qed.

End RepeatFacts.

(** The loop count the loops run with is infinite or a number of passes of
    at least one. *)
Lemma plan_loop_cases (p : list num) (w : num) :
  (loopCount p w = PInf /\ loop (dashPlan p w) = PInf)
  \/ (loopCount p w <> PInf /\ exists n, loop (dashPlan p w) = ofNat n /\ 1 <= n).
Proof.
  destruct (ngt (loopCount p w) (Fin 1)) eqn:E.
  - rewrite dashPlan_tile by exact E. cbn [loop].
    destruct (ngt_one_cases _ E) as [Hinf | [n [Hn H1]]].
    + left. split; exact Hinf.
    + right. fold (loopCount p w) in Hn. split; [rewrite Hn; discriminate |].
      exists n. split; [exact Hn | lia].
  - right. split; [intros Hinf; rewrite Hinf in E; discriminate E |].
    rewrite dashPlan_squeeze by exact E. exists 1. split; [reflexivity | lia].
Qed.

Lemma loopsForever_iff (strokePattern : option (list num)) (oneEmWidth : num) :
  loopsForever strokePattern oneEmWidth = true
  <-> exists p, strokePattern = Some p /\ 2 <= List.length p
                /\ loopCount p oneEmWidth = PInf.
Proof.
  unfold loopsForever. split.
  - destruct strokePattern as [p |]; [| discriminate]. intros H.
    apply andb_true_iff in H. destruct H as [Hlen Hinf].
    apply Nat.leb_le in Hlen. exists p. repeat split; [exact Hlen |].
    destruct (loopCount p oneEmWidth); try discriminate. reflexivity.
  - intros [p [-> [Hlen Hinf]]]. rewrite Hinf.
    apply andb_true_iff. split; [apply Nat.leb_le; exact Hlen | reflexivity].
Qed.

Section DashOutcomes.

Variable numToString : num -> string.

Lemma dash_no_raise (fuel : nat) (strokePattern : option (list num)) (color : string)
    (oneEmWidth : num) :
  generateTooltipDashHTML numToString fuel strokePattern color oneEmWidth <> Raise.
Proof.
  unfold generateTooltipDashHTML, renderDash.
  destruct strokePattern as [p |]; [| discriminate].
  destruct (List.length p <=? 1)%nat; [discriminate | apply repeatPattern_no_raise].
Qed.

Lemma dash_hangs (fuel : nat) (strokePattern : option (list num)) (color : string)
    (oneEmWidth : num) :
  loopsForever strokePattern oneEmWidth = true ->
  generateTooltipDashHTML numToString fuel strokePattern color oneEmWidth = OutOfFuel.
Proof.
  intros H. apply loopsForever_iff in H. destruct H as [p [-> [Hlen Hinf]]].
  unfold generateTooltipDashHTML. rewrite renderDash_dashed by exact Hlen.
  apply repeatPattern_infinite.
  destruct (plan_loop_cases p oneEmWidth) as [[_ H] | [H _]]; [exact H | contradiction].
Qed.

Lemma dash_returns (strokePattern : option (list num)) (color : string) (oneEmWidth : num) :
  loopsForever strokePattern oneEmWidth = false ->
  exists n html, forall fuel, n <= fuel ->
    generateTooltipDashHTML numToString fuel strokePattern color oneEmWidth = Done html.
Proof.
  intros Hfin. unfold generateTooltipDashHTML.
  destruct strokePattern as [p |]; [| exists 0; eexists; intros; reflexivity].
  destruct (Nat.leb_spec (List.length p) 1) as [Hle | Hgt].
  - exists 0. eexists. intros fuel _. unfold renderDash.
    destruct (Nat.leb_spec (List.length p) 1); [reflexivity | lia].
  - destruct (plan_loop_cases p oneEmWidth) as [[Hinf _] | [_ [n [Hn _]]]].
    + exfalso. assert (H : loopsForever (Some p) oneEmWidth = true)
        by (apply loopsForever_iff; exists p; repeat split; [lia | exact Hinf]).
      congruence.
    + exists n. eexists. intros fuel Hfuel. rewrite renderDash_dashed by lia.
      rewrite (repeatPattern_finite _ _ _ n Hn) by lia. reflexivity.
Qed.

End DashOutcomes.

(** X7.  When the pattern has at least two elements and its loop count
    [floor(budget / (cycleLength - pattern[0]))], computed exactly, is
    [Infinity], the renderer returns no fragment, whatever the fuel (the
    outer loop has no last pass; an engine ends the call with the
    [RangeError] of the append that outgrows its string limit).  In every
    other case the outer loop has a last pass, and with any fuel from the
    loop count on the renderer returns its markup, a string of a length that
    the embedding does not bound. *)
Theorem dash_returns_unless_infinite (numToString : num -> string)
    (strokePattern : option (list num)) (color : string) (oneEmWidth : num) :
  ((exists p, strokePattern = Some p /\ 2 <= List.length p
              /\ loopCount p oneEmWidth = PInf)
   -> forall fuel html,
        generateTooltipDashHTML numToString fuel strokePattern color oneEmWidth
        <> Done html)
  /\ (~ (exists p, strokePattern = Some p /\ 2 <= List.length p
                   /\ loopCount p oneEmWidth = PInf)
      -> exists n html, forall fuel, n <= fuel ->
           generateTooltipDashHTML numToString fuel strokePattern color oneEmWidth
           = Done html).
Proof.
  split.
  - intros H fuel html. rewrite dash_hangs by (apply loopsForever_iff; exact H).
    discriminate.
  - intros H. apply dash_returns.
    destruct (loopsForever strokePattern oneEmWidth) eqn:E; [| reflexivity].
    apply loopsForever_iff in E. contradiction.
Qed.

Lemma Qpos_iff (q : Q) : Qpos q = true <-> (0 < q)%Q.
Proof. unfold Qpos, Qlt. simpl. rewrite Z.mul_1_r. apply Z.ltb_lt. Qed.

(** The divisor of the loop count is the sum of the pattern. *)
Lemma period_Fin (qs : list Q) :
  1 <= List.length qs ->
  exists d, nsub (strokePixelLengthOf (map Fin qs)) (at_ (map Fin qs) 0) = Fin d
            /\ (d == Qsum qs)%Q.
Proof.
  intros H. destruct (cycleLength_Fin qs H) as [c [Hc Ec]].
  rewrite Hc, at_map_Fin by lia. eexists. split; [reflexivity |].
  rewrite Qred_correct, Ec. ring.
Qed.



(** One pass of the inner loop adds a block for every second index below
    [segmentLoop]. *)
Lemma drawFrom_length (p : list num) (pl : plan) (n i : nat) (acc : list block) :
  segmentLoop pl <= i + 2 * n ->
  List.length (drawFrom snoc p pl n i acc)
  = List.length acc + (segmentLoop pl + 1 - i) / 2.
Proof.
  revert i acc. induction n as [| n IH]; intros i acc Hn; cbn [drawFrom].
  - rewrite Nat.div_small by lia. lia.
  - destruct (Nat.ltb_spec i (segmentLoop pl)) as [Hlt | Hge].
    + rewrite IH by lia. unfold snoc. rewrite length_app. cbn [List.length].
      replace (segmentLoop pl + 1 - i) with ((segmentLoop pl + 1 - (i + 2)) + 1 * 2) by lia.
      rewrite Nat.div_add by lia. lia.
    + rewrite Nat.div_small by lia. lia.
Qed.

Lemma iter_pass_length (p : list num) (pl : plan) (n : nat) :
  List.length (Nat.iter n (drawPattern snoc p pl) [])
  = n * ((segmentLoop pl + 1) / 2).
Proof.
  induction n as [| n IH]; [reflexivity |].
  rewrite Nat.iter_succ. unfold drawPattern at 1.
  rewrite drawFrom_length by lia. rewrite IH, Nat.sub_0_r. lia.
Qed.

(** X9.  The number of blocks in a dashed swatch: in the squeeze branch
    half the pattern's length, rounded down, plus one; in the tile branch
    the loop count times half the pattern's length, rounded up.  The markup
    returned is the markup of these blocks, one [div] each. *)
Theorem dash_block_count (numToString : num -> string) (fuel : nat) (p : list num)
    (color : string) (oneEmWidth : num) (blocks : list block) :
  2 <= List.length p ->
  dashBlocks fuel (Some p) oneEmWidth = Done blocks ->
  generateTooltipDashHTML numToString fuel (Some p) color oneEmWidth
  = Done (String.concat "" (map (blockHTML numToString color) blocks))
  /\ (ngt (loopCount p oneEmWidth) (Fin 1) = false ->
      List.length blocks = List.length p / 2 + 1)
  /\ (ngt (loopCount p oneEmWidth) (Fin 1) = true ->
      exists n, loopCount p oneEmWidth = ofNat n
                /\ List.length blocks = n * ((List.length p + 1) / 2)).
Proof.
  intros Hlen Hb. split; [| split].
  - rewrite dash_markup_of_blocks by exact Hlen. rewrite Hb. reflexivity.
  - intros Hsq. unfold dashBlocks in Hb. rewrite renderDash_dashed in Hb by exact Hlen.
    apply (repeatPattern_done _ _ _ 1) in Hb;
      [| rewrite dashPlan_squeeze by exact Hsq; reflexivity].
    rewrite Hb, iter_pass_length, dashPlan_squeeze by exact Hsq.
    cbn [segmentLoop].
    replace (List.length p + 1 + 1) with (List.length p + 1 * 2) by lia.
    rewrite Nat.div_add by lia. lia.
  - intros Hgt. unfold dashBlocks in Hb. rewrite renderDash_dashed in Hb by exact Hlen.
    destruct (plan_loop_cases p oneEmWidth) as [[_ Hinf] | [_ [n [Hn _]]]].
    + rewrite (repeatPattern_infinite _ _ _ Hinf) in Hb. discriminate Hb.
    + exists n. apply (repeatPattern_done _ _ _ n) in Hb; [| exact Hn].
      rewrite dashPlan_tile in Hn by exact Hgt. cbn [loop] in Hn.
      split; [exact Hn |].
      rewrite Hb, iter_pass_length, dashPlan_tile by exact Hgt. reflexivity.
Qed.

Lemma dash_block_count_witness :
  2 <= List.length [Fin 10; Fin 1; Fin 1]
  /\ dashBlocks 2 (Some [Fin 10; Fin 1; Fin 1]) (Fin 24)
     = Done [Block (Fin (1 # 24)) (Fin (5 # 12)); Block (Fin (5 # 12)) (Fin (1 # 24));
             Block (Fin (1 # 24)) (Fin (5 # 12)); Block (Fin (5 # 12)) (Fin (1 # 24))]
  /\ exists n, loopCount [Fin 10; Fin 1; Fin 1] (Fin 24) = ofNat n
               /\ 4 = n * ((3 + 1) / 2).
Proof.
  assert (Hlen : 2 <= List.length [Fin 10; Fin 1; Fin 1]) by (simpl; lia).
  split; [exact Hlen |]. split; [reflexivity |].
  destruct (dash_block_count decimalString 2 [Fin 10; Fin 1; Fin 1] "#f00" (Fin 24)
              _ Hlen eq_refl) as [_ [_ Htile]].
  apply Htile. reflexivity.
Defined.


Lemma Qpos_proper (a b : Q) : (a == b)%Q -> Qpos a = Qpos b.
Proof.
  intros E. destruct (Qpos b) eqn:Eb.
  - apply Qpos_iff. apply Qpos_iff in Eb. rewrite E. exact Eb.
  - destruct (Qpos a) eqn:Ea; [| reflexivity].
    apply Qpos_iff in Ea. rewrite E in Ea. apply Qpos_iff in Ea. congruence.
Qed.









Section SameLength.

(** The drawing loops read the pattern for its length only. *)
Context {A : Type} (emit : A -> block -> A).
Variables p p' : list num.
Variable pl : plan.
Hypothesis Hsame : List.length p = List.length p'.



End SameLength.




(* ================================================================== *)
(** ** Further properties of the fragment generator *)

Lemma joinOnto_cons (text e : string) (es : list string) :
  joinOnto text (e :: es)
  = joinOnto ((if String.eqb text "" then text else text ++ "<br/>") ++ e) es.
Proof. reflexivity. Qed.

Lemma joinOnto_nonempty (text : string) (entries : list string) :
  text <> "" ->
  joinOnto text entries
  = text ++ String.concat "" (map (fun e => "<br/>" ++ e) entries).
Proof.
  revert text. induction entries as [| e es IH]; intros text Ht; cbn [joinOnto fold_left map].
  - cbn. rewrite append_empty_r. reflexivity.
  - fold (joinOnto ((if String.eqb text "" then text else text ++ "<br/>") ++ e) es).
    destruct (String.eqb_spec text ""); [contradiction |].
    rewrite IH.
    + rewrite !append_assoc. f_equal. destruct es; cbn; [rewrite append_empty_r |]; reflexivity.
    + destruct text; [contradiction | discriminate].
Qed.

Lemma concat_breaks (e : string) (es : list string) :
  String.concat "<br/>" (e :: es)
  = e ++ String.concat "" (map (fun x => "<br/>" ++ x) es).
Proof.
  revert e. induction es as [| y es IH]; intros e.
  - cbn. rewrite append_empty_r. reflexivity.
  - change (String.concat "<br/>" (e :: y :: es))
      with (e ++ "<br/>" ++ String.concat "<br/>" (y :: es)).
    rewrite IH. f_equal. destruct es; cbn; [rewrite !append_empty_r |];
      rewrite ?append_assoc; reflexivity.
Qed.

(** Joined from the empty text, entries that are not empty are separated by
    line breaks. *)
Lemma joinOnto_empty (entries : list string) :
  Forall (fun e => e <> "") entries ->
  joinOnto "" entries = String.concat "<br/>" entries.
Proof.
  intros H. destruct H as [| e es He Hes]; [reflexivity |].
  cbn [joinOnto fold_left]. cbn [String.eqb append].
  fold (joinOnto e es). rewrite joinOnto_nonempty by exact He.
  symmetry. apply concat_breaks.
Qed.

Section LegendFacts.

Variable numToString : num -> string.
Variable isOK : num -> bool.

Lemma defaultEntries_nonempty (fuel : nat) (g : Dygraph) (w : num) (labels : list string)
    (entries : list string) :
  defaultEntries numToString fuel g w labels = Done entries ->
  Forall (fun e => e <> "") entries.
Proof.
  revert entries. induction labels as [| l rest IH]; intros entries H; cbn in H.
  - injection H as <-. constructor.
  - destruct (generateTooltipDashHTML _ _ _ _ _) as [dash | |]; cbn in H; try discriminate.
    destruct (defaultEntries _ _ _ _ rest) as [es | |]; cbn in H; try discriminate.
    injection H as <-. constructor; [discriminate | apply IH; reflexivity].
Qed.

(** The loop over the labels: hidden series are passed over, and every
    visible one adds its entry after a line break, unless it comes first. *)
Lemma forEach_defaultLine (fuel : nat) (g : Dygraph) (w : num) (labels : list string)
    (html : fragment) :
  omap flatten (forEach (defaultLine numToString fuel g w) labels html)
  = omap (joinOnto (flatten html))
      (defaultEntries numToString fuel g w
         (filter (fun l => visible (getPropertiesForSeries g l)) labels)).
Proof.
  revert html. induction labels as [| l rest IH]; intros html; [reflexivity |].
  cbn [forEach filter]. unfold defaultLine at 1.
  destruct (visible (getPropertiesForSeries g l)); cbn [negb].
  - cbn [defaultEntries].
    destruct (generateTooltipDashHTML _ _ _ _ _) as [dash | |]; cbn [obind]; try reflexivity.
    rewrite IH.
    destruct (defaultEntries _ _ _ _ _) as [es | |]; cbn [obind omap]; try reflexivity.
    f_equal. rewrite joinOnto_cons. f_equal.
    rewrite flatten_app. unfold nonEmpty.
    destruct (String.eqb (flatten html) ""); cbn [negb];
      [| rewrite flatten_app]; reflexivity.
  - cbn [obind]. apply IH.
Qed.

(** X11.  With nothing selected the fragment is the entries of the visible
    series, in the order of the labels and without the first label, joined
    by line breaks: hidden series leave no trace (not even a separator),
    and there is no leading or trailing break. *)
Theorem default_legend_joined (fuel : nat) (g : Dygraph) (sel_points : option (list point))
    (oneEmWidth : num) (row : option nat) :
  showLabelsOnHighlight g = true ->
  generateTooltipHTML numToString isOK fuel g None sel_points oneEmWidth row
  = omap (String.concat "<br/>")
      (defaultEntries numToString fuel g oneEmWidth (visibleLabels g)).
Proof.
  intros Hshow. unfold generateTooltipHTML, generateTooltipFragment, visibleLabels.
  rewrite Hshow. cbn [negb]. rewrite forEach_defaultLine.
  destruct (defaultEntries _ _ _ _ _) as [es | |] eqn:E; cbn [omap obind]; try reflexivity.
  f_equal. apply joinOnto_empty. apply (defaultEntries_nonempty _ _ _ _ _ E).
Qed.

End LegendFacts.

Lemma default_legend_joined_witness :
  showLabelsOnHighlight (sampleChart plainFormatter true) = true
  /\ generateTooltipHTML decimalString isFiniteNumber 1 (sampleChart plainFormatter true)
       None None (Fin 1) None
     = omap (String.concat "<br/>")
         (defaultEntries decimalString 1 (sampleChart plainFormatter true) (Fin 1) ["A<B"]).
Proof.
  split; [reflexivity |].
  apply (default_legend_joined decimalString isFiniteNumber 1
           (sampleChart plainFormatter true) None (Fin 1) None eq_refl).
Defined.

Lemma nth_error_seq0 (n i : nat) :
  nth_error (seq 0 n) i = if (i <? n)%nat then Some i else None.
Proof.
  destruct (Nat.ltb_spec i n) as [H | H].
  - rewrite (nth_error_nth' _ 0) by (rewrite length_seq; exact H).
    rewrite seq_nth by exact H. reflexivity.
  - apply nth_error_None. rewrite length_seq. exact H.
Qed.

(** [yOptViews[series.axis - 1]] is defined for the axes [1 .. numAxes]. *)
Lemma yOptViewOf_known (g : Dygraph) (pt : point) :
  yOptViewOf (yOptViewsOf g) (getPropertiesForSeries g (name pt))
  = if axisKnown g pt then Some (yViewOf g pt) else None.
Proof.
  unfold yOptViewOf, yOptViewsOf, axisKnown, yViewOf.
  destruct (axis (getPropertiesForSeries g (name pt))) as [| i]; [reflexivity |].
  rewrite nth_error_map, nth_error_seq0.
  replace (S i - 1) with i by lia.
  change (1 <=? S i)%nat with true. cbn [andb].
  destruct (Nat.ltb_spec i (numAxes g)); destruct (Nat.leb_spec (S i) (numAxes g));
    try lia; reflexivity.
Qed.

Section SelectionFacts.

Variable numToString : num -> string.
Variable isOK : num -> bool.

Lemma selectedLine_cases (g : Dygraph) (views : list optionsView) (row : option nat)
    (html : fragment) (pt : point) :
  selectedLine isOK g views row html pt
  = if shown isOK g pt
    then match yOptViewOf views (getPropertiesForSeries g (name pt)) with
         | None => Raise
         | Some view => Done (html ++ legendLine g view row pt)%list
         end
    else Done html.
Proof.
  unfold selectedLine, shown.
  destruct (nzero (yval pt) && negb (labelsShowZeroValues g)); [reflexivity |].
  destruct (isOK (canvasy pt)); reflexivity.
Qed.

Lemma forEach_selectedLine (g : Dygraph) (row : option nat) (pts : list point)
    (html : fragment) :
  forEach (selectedLine isOK g (yOptViewsOf g) row) pts html
  = if forallb (axisKnown g) (filter (shown isOK g) pts)
    then Done (html ++ flat_map (fun pt => legendLine g (yViewOf g pt) row pt)
                         (filter (shown isOK g) pts))%list
    else Raise.
Proof.
  revert html. induction pts as [| pt pts IH]; intros html.
  - cbn. rewrite app_nil_r. reflexivity.
  - cbn [forEach filter]. rewrite selectedLine_cases.
    destruct (shown isOK g pt); cbn [obind]; [| apply IH].
    rewrite yOptViewOf_known. cbn [forallb flat_map].
    destruct (axisKnown g pt); cbn [andb obind]; [| reflexivity].
    rewrite IH. destruct (forallb _ _); [| reflexivity].
    rewrite app_assoc. reflexivity.
Qed.

(** X12.  With a selection, the fragment is the formatted x value (and its
    colon) followed by the legend lines of the points that pass both guards,
    in the order of the selection; the call throws exactly when one of those
    points belongs to a series whose axis is not one of [1 .. numAxes].  The
    cached em width and the fuel play no part: no swatch is rendered. *)
Theorem selection_legend (fuel : nat) (g : Dygraph) (xv : num) (pts : list point)
    (oneEmWidth : num) (row : option nat) :
  showLabelsOnHighlight g = true ->
  generateTooltipFragment numToString isOK fuel g (Some xv) (Some pts) oneEmWidth row
  = if forallb (axisKnown g) (filter (shown isOK g) pts)
    then Done (selectionHeader g xv row
               ++ flat_map (fun pt => legendLine g (yViewOf g pt) row pt)
                    (filter (shown isOK g) pts))%list
    else Raise.
Proof.
  intros Hshow. unfold generateTooltipFragment. rewrite Hshow. cbn [negb].
  apply forEach_selectedLine.
Qed.

End SelectionFacts.

Lemma selection_legend_witness :
  showLabelsOnHighlight (sampleChart plainFormatter true) = true
  /\ generateTooltipFragment decimalString isFiniteNumber 0 (sampleChart plainFormatter true)
       (Some (Fin 3))
       (Some [samplePoint (Fin 7) NaN; samplePoint (Fin 7) (Fin 120)]) (Fin 10) None
     = Done (selectionHeader (sampleChart plainFormatter true) (Fin 3) None
             ++ legendLine (sampleChart plainFormatter true)
                  (yViewOf (sampleChart plainFormatter true) (samplePoint (Fin 7) (Fin 120)))
                  None (samplePoint (Fin 7) (Fin 120)))%list.
Proof.
  split; [reflexivity |].
  rewrite (selection_legend decimalString isFiniteNumber 0 (sampleChart plainFormatter true)
             (Fin 3) [samplePoint (Fin 7) NaN; samplePoint (Fin 7) (Fin 120)]
             (Fin 10) None eq_refl).
  reflexivity.
Defined.

Section LegendOutcomes.

Variable numToString : num -> string.
Variable isOK : num -> bool.

Lemma defaultEntries_no_raise (fuel : nat) (g : Dygraph) (w : num) (labels : list string) :
  defaultEntries numToString fuel g w labels <> Raise.
Proof.
  induction labels as [| l rest IH]; cbn [defaultEntries]; [discriminate |].
  pose proof (dash_no_raise numToString fuel (strokePatternOption g l)
                (color (getPropertiesForSeries g l)) w) as Hd.
  destruct (generateTooltipDashHTML _ _ _ _ _); cbn [obind]; try congruence.
  destruct (defaultEntries _ _ _ _ rest); cbn [obind]; congruence.
Qed.

Lemma defaultEntries_hang (fuel : nat) (g : Dygraph) (w : num) (labels : list string) :
  existsb (fun l => loopsForever (strokePatternOption g l) w) labels = true ->
  defaultEntries numToString fuel g w labels = OutOfFuel.
Proof.
  induction labels as [| l rest IH]; cbn [existsb defaultEntries]; [discriminate |].
  intros H. apply orb_true_iff in H. destruct H as [H | H].
  - rewrite (dash_hangs numToString fuel _ _ _ H). reflexivity.
  - pose proof (dash_no_raise numToString fuel (strokePatternOption g l)
                  (color (getPropertiesForSeries g l)) w) as Hd.
    destruct (generateTooltipDashHTML _ _ _ _ _); cbn [obind]; try congruence.
    rewrite (IH H). reflexivity.
Qed.

Lemma defaultEntries_return (g : Dygraph) (w : num) (labels : list string) :
  existsb (fun l => loopsForever (strokePatternOption g l) w) labels = false ->
  exists n entries, forall fuel, n <= fuel ->
    defaultEntries numToString fuel g w labels = Done entries.
Proof.
  induction labels as [| l rest IH]; cbn [existsb defaultEntries].
  - intros _. exists 0, []. reflexivity.
  - intros H. apply orb_false_iff in H. destruct H as [Hl Hrest].
    destruct (dash_returns numToString (strokePatternOption g l)
                (color (getPropertiesForSeries g l)) w Hl) as [n1 [dash Hdash]].
    destruct (IH Hrest) as [n2 [es Hes]].
    exists (Nat.max n1 n2), (defaultEntry g l dash :: es). intros fuel Hfuel.
    rewrite Hdash, Hes by lia. reflexivity.
Qed.

Lemma generate_default (fuel : nat) (g : Dygraph) (sel_points : option (list point))
    (w : num) (row : option nat) :
  showLabelsOnHighlight g = true ->
  generateTooltipHTML numToString isOK fuel g None sel_points w row
  = omap (joinOnto "") (defaultEntries numToString fuel g w (visibleLabels g)).
Proof.
  intros Hshow. unfold generateTooltipHTML, generateTooltipFragment, visibleLabels.
  rewrite Hshow. cbn [negb]. apply forEach_defaultLine.
Qed.

(** X13.  With nothing selected, one visible series on whose pattern the
    swatch renderer has an infinite loop count is enough for the generator
    to return no legend, whatever the fuel (in an engine the swatch's
    string outgrows the limit and the call ends with a [RangeError]).  When
    no visible series has such a pattern every swatch loop has a last pass,
    and with enough fuel the generator returns the legend, a string of a
    length that the embedding does not bound. *)
Theorem default_legend_returns_unless_a_swatch_hangs (g : Dygraph) (oneEmWidth : num) :
  showLabelsOnHighlight g = true ->
  (existsb (fun l => loopsForever (strokePatternOption g l) oneEmWidth)
     (visibleLabels g) = true ->
   forall fuel sel_points row html,
     generateTooltipHTML numToString isOK fuel g None sel_points oneEmWidth row
     <> Done html)
  /\ (existsb (fun l => loopsForever (strokePatternOption g l) oneEmWidth)
        (visibleLabels g) = false ->
      exists n html, forall fuel sel_points row, n <= fuel ->
        generateTooltipHTML numToString isOK fuel g None sel_points oneEmWidth row
        = Done html).
Proof.
  intros Hshow. split.
  - intros H fuel sel_points row html. rewrite generate_default by exact Hshow.
    rewrite (defaultEntries_hang _ _ _ _ H). discriminate.
  - intros H. destruct (defaultEntries_return g oneEmWidth _ H) as [n [es Hes]].
    exists n, (joinOnto "" es). intros fuel sel_points row Hfuel.
    rewrite generate_default by exact Hshow. rewrite Hes by exact Hfuel. reflexivity.
Qed.

End LegendOutcomes.

Lemma default_legend_returns_unless_a_swatch_hangs_witness :
  showLabelsOnHighlight (sampleChart plainFormatter true) = true
  /\ existsb (fun l => loopsForever (strokePatternOption (sampleChart plainFormatter true) l)
                         (Fin 10))
       (visibleLabels (sampleChart plainFormatter true)) = false
  /\ exists n html, forall fuel sel_points row, n <= fuel ->
       generateTooltipHTML decimalString isFiniteNumber fuel (sampleChart plainFormatter true)
         None sel_points (Fin 10) row = Done html.
Proof.
  split; [reflexivity |]. split; [reflexivity |].
  apply (proj2 (default_legend_returns_unless_a_swatch_hangs decimalString isFiniteNumber
                  (sampleChart plainFormatter true) (Fin 10) eq_refl)).
  reflexivity.
Defined.

(* ================================================================== *)
(** ** Further properties of the handlers *)

Section HandlerOutcomes.

Variable numToString : num -> string.
Variable isOK : num -> bool.
Variable offsetWidth : element -> num.

(** X14.  [deselect] on a plugin that has a div: the measured width is
    stored first and stays stored however the call ends; the call ends as
    the generation of the default legend at that width ends; the div keeps
    its style and its place in the document, and its content is replaced
    only when the generation returns. *)
Theorem deselect_effect (fuel : nat) (e : event) (this : tooltip) (div : element) :
  tooltip_div_ this = Some div ->
  one_em_width_ (snd (deselect numToString isOK offsetWidth fuel e this)) = offsetWidth div
  /\ is_generated_div_ (snd (deselect numToString isOK offsetWidth fuel e this))
     = is_generated_div_ this
  /\ fst (deselect numToString isOK offsetWidth fuel e this)
     = omap (fun _ => tt)
         (generateTooltipHTML numToString isOK fuel (dygraph e) None None
            (offsetWidth div) None)
  /\ exists div',
       tooltip_div_ (snd (deselect numToString isOK offsetWidth fuel e this)) = Some div'
       /\ elementStyle div' = elementStyle div
       /\ inGraphDiv div' = inGraphDiv div
       /\ innerHTML div'
          = match generateTooltipHTML numToString isOK fuel (dygraph e) None None
                    (offsetWidth div) None with
            | Done html => html
            | _ => innerHTML div
            end.
Proof.
  intros Hdiv.
  unfold deselect, hbind, getThis, hlift, calculateEmWidthInDiv, setOneEmWidth,
    setInnerHTML, updateDiv.
  rewrite Hdiv. cbn.
  destruct (generateTooltipHTML numToString isOK fuel (dygraph e) None None
              (offsetWidth div) None) as [html | |]; cbn; rewrite ?Hdiv;
    repeat split; eexists; repeat split; reflexivity.
Qed.

(** X15.  A plugin without a div (after [destroy], or when the div was
    never found): [deselect] and [didDrawChart] throw at once, [select]
    never completes, [predraw] throws when the plugin believes it generated
    the div and does nothing otherwise; the plugin is left as it was. *)
Theorem handlers_without_div (fuel : nat) (e : event) (this : tooltip) :
  tooltip_div_ this = None ->
  deselect numToString isOK offsetWidth fuel e this = (Raise, this)
  /\ didDrawChart numToString isOK offsetWidth fuel e this = (Raise, this)
  /\ fst (select numToString isOK fuel e this) <> Done tt
  /\ snd (select numToString isOK fuel e this) = this
  /\ predraw numToString e this
     = ((if is_generated_div_ this then Raise else Done tt), this)
  /\ tooltip_div_ (snd (destroy this)) = None.
Proof.
  intros Hdiv.
  assert (Hdes : deselect numToString isOK offsetWidth fuel e this = (Raise, this)).
  { unfold deselect, hbind, getThis, hlift, calculateEmWidthInDiv. rewrite Hdiv.
    reflexivity. }
  split; [exact Hdes |]. split; [exact Hdes |].
  assert (Hsel : fst (select numToString isOK fuel e this) <> Done tt
                 /\ snd (select numToString isOK fuel e this) = this).
  { unfold select.
    destruct (String.eqb (tooltipOption (dygraph e)) "never").
    { unfold setDisplay, updateStyle, updateDiv. rewrite Hdiv. cbn. split; [discriminate | reflexivity]. }
    unfold hbind at 1.
    destruct (String.eqb (tooltipOption (dygraph e)) "follow").
    { unfold follow. destruct (selectedPoints e) as [[| p0 pts] |];
        unfold hlift, hbind, appendToGraphDiv, updateDiv; rewrite ?Hdiv; cbn;
        (split; [discriminate | reflexivity]). }
    unfold hret, hbind, getThis, hlift, setInnerHTML, updateDiv.
    destruct (generateTooltipHTML _ _ _ _ _ _ _ _) as [html | |]; rewrite ?Hdiv; cbn;
      (split; [discriminate | reflexivity]). }
  destruct Hsel as [Hs1 Hs2]. split; [exact Hs1 |]. split; [exact Hs2 |].
  split; [| reflexivity].
  unfold predraw, hbind, getThis. cbn.
  destruct (is_generated_div_ this); cbn; [| reflexivity].
  unfold appendToGraphDiv, updateDiv. rewrite Hdiv. reflexivity.
Qed.

End HandlerOutcomes.

Lemma deselect_effect_witness :
  tooltip_div_ sampleTooltip = Some sampleDiv
  /\ one_em_width_
       (snd (deselect decimalString isFiniteNumber (fun _ => Fin 14) 1 sampleEvent
               sampleTooltip)) = Fin 14
  /\ fst (deselect decimalString isFiniteNumber (fun _ => Fin 14) 1 sampleEvent sampleTooltip)
     = Done tt.
Proof.
  split; [reflexivity |].
  destruct (deselect_effect decimalString isFiniteNumber (fun _ => Fin 14) 1 sampleEvent
              sampleTooltip sampleDiv eq_refl) as [Hw [_ [Hout _]]].
  split; [exact Hw | rewrite Hout; reflexivity].
Defined.

Lemma handlers_without_div_witness :
  tooltip_div_ (snd (destroy sampleTooltip)) = None
  /\ deselect decimalString isFiniteNumber (fun _ => Fin 14) 1 sampleEvent
       (snd (destroy sampleTooltip))
     = (Raise, snd (destroy sampleTooltip)).
Proof.
  split; [reflexivity |].
  apply (handlers_without_div decimalString isFiniteNumber (fun _ => Fin 14) 1 sampleEvent
           (snd (destroy sampleTooltip)) eq_refl).
Defined.

Section HandlerComposition.

Variable numToString : num -> string.
Variable isOK : num -> bool.

(** X16.  A selection event delivered twice leaves the plugin as the first
    delivery left it and ends the same way: what [select] writes (content,
    position, visibility) comes from the event and the cached width alone. *)
Theorem select_idempotent (fuel : nat) (e : event) (this : tooltip) :
  select numToString isOK fuel e (snd (select numToString isOK fuel e this))
  = select numToString isOK fuel e this.
Proof.
  unfold select.
  destruct (String.eqb (tooltipOption (dygraph e)) "never").
  { unfold setDisplay, updateStyle, updateDiv.
    destruct (tooltip_div_ this) as [div |] eqn:Hdiv; cbn; rewrite ?Hdiv; reflexivity. }
  destruct (String.eqb (tooltipOption (dygraph e)) "follow").
  - unfold follow.
    destruct (selectedPoints e) as [[| p0 pts] |];
      unfold hbind, hlift, getThis, appendToGraphDiv, setLeft, setTop, setInnerHTML,
        setDisplay, updateStyle, updateDiv;
      destruct (tooltip_div_ this) as [div |] eqn:Hdiv; cbn; rewrite ?Hdiv; cbn;
      try reflexivity.
    destruct (generateTooltipHTML numToString isOK fuel (dygraph e) (selectedX e)
                (Some (p0 :: pts)) (one_em_width_ this) (selectedRow e)) as [html | |] eqn:Hg;
      cbn; rewrite ?Hg; cbn; reflexivity.
  - unfold hbind, hret, hlift, getThis, setInnerHTML, setDisplay, updateStyle, updateDiv.
    destruct (generateTooltipHTML numToString isOK fuel (dygraph e) (selectedX e)
                (selectedPoints e) (one_em_width_ this) (selectedRow e)) as [html | |] eqn:Hg;
      destruct (tooltip_div_ this) as [div |] eqn:Hdiv; cbn; rewrite ?Hg, ?Hdiv; cbn;
      rewrite ?Hg; reflexivity.
Qed.

(** X17.  [predraw] does not touch a div the user supplied (it does not
    even look at it), and on a generated div it is idempotent: the position
    and width it writes come from the chart alone. *)
Theorem predraw_user_div_untouched_and_idempotent (e : event) (this : tooltip) :
  (is_generated_div_ this = false -> predraw numToString e this = (Done tt, this))
  /\ predraw numToString e (snd (predraw numToString e this)) = predraw numToString e this.
Proof.
  split.
  - intros H. unfold predraw, hbind, getThis. cbn. rewrite H. reflexivity.
  - destruct this as [[div |] [|] w]; reflexivity.
Qed.

End HandlerComposition.

Lemma ngt_Fin (a b : Q) : ngt (Fin a) (Fin b) = true <-> (b < a)%Q.
Proof.
  unfold ngt, nlt. rewrite negb_true_iff. split.
  - intros H. apply Qnot_le_lt. intros Hle. apply Qle_bool_iff in Hle. congruence.
  - intros H. destruct (Qle_bool a b) eqn:E; [| reflexivity].
    apply Qle_bool_iff in E. exfalso. apply (Qlt_not_le _ _ H). exact E.
Qed.

Section FollowFacts.

Variable numToString : num -> string.
Variable isOK : num -> bool.

(** X18.  In ['follow'] mode, with finite coordinates, [select] puts the
    div in the graph div with its top 20 pixels above the first selected
    point.  When the div fits between the point and the right edge of the
    window its left is the y-axis label width plus the point's offset plus
    20; otherwise it is flipped, and its right edge (left plus width) is
    exactly 20 pixels left of the point (the area's x plus the point's
    offset), whatever the label width.  The position is written before the
    fragment is generated, so it holds however [select] ends. *)
Theorem follow_position (fuel : nat) (e : event) (this : tooltip) (div : element)
    (p0 : point) (pts : list point) (x y aw ah ax W L sx iw : Q) :
  tooltipOption (dygraph e) = "follow" ->
  tooltip_div_ this = Some div ->
  selectedPoints e = Some (p0 :: pts) ->
  px p0 = Fin x -> py p0 = Fin y ->
  area (dygraph e) = {| area_x := Fin ax; area_y := area_y (area (dygraph e));
                        area_w := Fin aw; area_h := Fin ah |} ->
  tooltipDivWidth (dygraph e) = Fin W ->
  axisLabelWidth (dygraph e) = Fin L ->
  scrollX e = Fin sx -> innerWidth e = Fin iw ->
  exists l t div',
    tooltip_div_ (snd (select numToString isOK fuel e this)) = Some div'
    /\ inGraphDiv div' = true
    /\ left (elementStyle div') = numToString (Fin l) ++ "px"
    /\ top (elementStyle div') = numToString (Fin t) ++ "px"
    /\ (t == y * ah - 20)%Q
    /\ ((x * aw + 20 + W + 1 <= sx + iw)%Q -> (l == L + (x * aw + 20))%Q)
    /\ ((sx + iw < x * aw + 20 + W + 1)%Q -> (l + W == ax + x * aw - 20)%Q).
Proof.
  intros Hmode Hdiv Hpts Hx Hy Harea HW HL Hsx Hiw.
  unfold select. rewrite Hmode.
  change (String.eqb "follow" "never") with false.
  change (String.eqb "follow" "follow") with true. cbv iota.
  unfold follow. rewrite Hpts, Hx, Hy, Harea, HW, HL, Hsx, Hiw.
  cbn [area_x area_w area_h nadd nmul nsub ofZ].
  destruct (ngt _ _) eqn:Eflip;
    match goal with
    | |- context [setLeft (numToString (Fin ?q) ++ "px")] => remember q as l eqn:El
    end;
    match goal with
    | |- context [setTop (numToString (Fin ?q) ++ "px")] => remember q as t eqn:Et
    end;
    (assert (Htop : (t == y * ah - 20)%Q)
       by (rewrite Et, !Qred_correct; reflexivity));
    unfold hbind, hlift, getThis, appendToGraphDiv, setLeft, setTop, setInnerHTML,
      setDisplay, updateStyle, updateDiv;
    rewrite Hdiv; cbn.
  - apply ngt_Fin in Eflip. rewrite !Qred_correct in Eflip.
    assert (Hflip : (sx + iw < x * aw + 20 + W + 1)%Q) by exact Eflip.
    assert (Hl : (l + W == ax + x * aw - 20)%Q).
    { rewrite El, !Qred_correct.
      change (inject_Z 2) with 2%Q. change (inject_Z 20) with 20%Q. ring. }
    destruct (generateTooltipHTML _ _ _ _ _ _ _ _); cbn;
      (exists l, t; eexists; split; [reflexivity |]; split; [reflexivity |];
       split; [reflexivity |]; split; [reflexivity |]; split; [exact Htop |];
       split; [intros Hfit; exfalso; lra | intros _; exact Hl]).
  - assert (Hfit : ~ (sx + iw < x * aw + 20 + W + 1)%Q).
    { intros H.
      assert (Ht : forall a b, (b < a)%Q -> ngt (Fin a) (Fin b) = true)
        by (intros a b; apply ngt_Fin).
      rewrite Ht in Eflip; [discriminate |]. rewrite !Qred_correct. exact H. }
    assert (Hl : (l == L + (x * aw + 20))%Q).
    { rewrite El, !Qred_correct. reflexivity. }
    destruct (generateTooltipHTML _ _ _ _ _ _ _ _); cbn;
      (exists l, t; eexists; split; [reflexivity |]; split; [reflexivity |];
       split; [reflexivity |]; split; [reflexivity |]; split; [exact Htop |];
       split; [intros _; exact Hl | intros H; contradiction]).
Qed.

End FollowFacts.

(** In a window 300 pixels wide the div does not fit right of the point at
    offset 200: it is flipped, and ends 20 pixels left of the point. *)
Lemma follow_position_witness :
  tooltipOption (dygraph (followEvent 300)) = "follow"
  /\ exists l t div',
       tooltip_div_ (snd (select decimalString isFiniteNumber 0 (followEvent 300)
                            sampleTooltip)) = Some div'
       /\ left (elementStyle div') = decimalString (Fin l) ++ "px"
       /\ top (elementStyle div') = decimalString (Fin t) ++ "px"
       /\ (t == (1 # 2) * 300 - 20)%Q
       /\ (l + 250 == 50 + (1 # 2) * 400 - 20)%Q.
Proof.
  split; [reflexivity |].
  destruct (follow_position decimalString isFiniteNumber 0 (followEvent 300) sampleTooltip
              sampleDiv (samplePoint (Fin 7) (Fin 120)) [] (1 # 2) (1 # 2) 400 300 50 250 50
              0 300 eq_refl eq_refl eq_refl eq_refl eq_refl eq_refl eq_refl eq_refl
              eq_refl eq_refl)
    as [l [t [div' [Hdiv [_ [Hl [Ht [Et [_ Hflip]]]]]]]]].
  exists l, t, div'. repeat split; try assumption.
  apply Hflip. reflexivity.
Defined.

Section LabelsOff.

Variable numToString : num -> string.
Variable isOK : num -> bool.

(** X19.  Unless [showLabelsOnHighlight] is exactly [true] the generator
    returns the empty string at once, whatever it is given: no formatter is
    called, no swatch is rendered, a missing point list or a series on an
    unknown axis throws nothing.  [select] (in a mode other than ['never']
    and ['follow']) then empties the div and still shows it. *)
Theorem labels_off_empty_fragment (fuel : nat) (g : Dygraph) (x : option num)
    (sel_points : option (list point)) (oneEmWidth : num) (row : option nat)
    (e : event) (this : tooltip) (div : element) :
  showLabelsOnHighlight g = false ->
  generateTooltipHTML numToString isOK fuel g x sel_points oneEmWidth row = Done ""
  /\ (dygraph e = g ->
      String.eqb (tooltipOption g) "never" = false ->
      String.eqb (tooltipOption g) "follow" = false ->
      tooltip_div_ this = Some div ->
      select numToString isOK fuel e this
      = (Done tt,
         {| tooltip_div_ :=
              Some {| innerHTML := "";
                      elementStyle := {| display := "";
                                         left := left (elementStyle div);
                                         top := top (elementStyle div);
                                         width := width (elementStyle div) |};
                      inGraphDiv := inGraphDiv div |};
            is_generated_div_ := is_generated_div_ this;
            one_em_width_ := one_em_width_ this |})).
Proof.
  intros Hoff.
  assert (Hgen : forall fuel' x' pts' w' row',
             generateTooltipHTML numToString isOK fuel' g x' pts' w' row' = Done "").
  { intros. unfold generateTooltipHTML, generateTooltipFragment. rewrite Hoff. reflexivity. }
  split; [apply Hgen |].
  intros He Hnever Hfollow Hdiv. unfold select. rewrite He, Hnever, Hfollow.
  unfold hbind, hret, hlift, getThis. rewrite Hgen.
  unfold setInnerHTML, setDisplay, updateStyle, updateDiv. rewrite Hdiv. reflexivity.
Qed.

End LabelsOff.

Lemma labels_off_empty_fragment_witness :
  showLabelsOnHighlight quietChart = false
  /\ generateTooltipHTML decimalString isFiniteNumber 0 quietChart None None (Fin 10) None
     = Done ""
  /\ generateTooltipHTML decimalString isFiniteNumber 0 quietChart (Some (Fin 3)) None
       (Fin 10) None
     = Done "".
Proof.
  split; [reflexivity |].
  split;
    apply (labels_off_empty_fragment decimalString isFiniteNumber 0 quietChart _ _ (Fin 10)
             None sampleEvent sampleTooltip sampleDiv eq_refl).
Defined.

(* ================================================================== *)
(** ** The width of a tiled pattern of odd length *)

Section OddPasses.

Variable p : list num.
Variable ns : list Q.
Variable pl : plan.
Hypothesis Hnorm : normalizedPattern pl = map Fin ns.
Hypothesis Hlen : List.length p = List.length ns.

(** A pass over a pattern of odd length that stops at the pattern's length
    ends on a block whose margin is the first element: the pass is as wide
    as the pattern and its first element together. *)
Lemma pass_tile_odd (r : nat) :
  segmentLoop pl = List.length ns ->
  forall n i, i + 2 * r + 1 = List.length ns -> r + 1 <= n ->
    Forall finiteBlock (drawFrom snoc p pl n i [])
    /\ (Qsum (map widthOf (drawFrom snoc p pl n i []))
        == Qsum (skipn i ns) + nth 0 ns 0)%Q.
Proof.
  intros HL. induction r as [| r IH]; intros n i Hi Hn.
  - destruct n as [| n]; [lia |]. cbn [drawFrom]. rewrite HL.
    destruct (Nat.ltb_spec i (List.length ns)); [| lia].
    rewrite (segment_wrap p ns pl Hnorm Hlen) by lia. rewrite snoc_nil.
    assert (Hstop : drawFrom snoc p pl n (i + 2)
                      [Block (Fin (nth 0 ns 0%Q)) (Fin (nth i ns 0%Q))]
                    = [Block (Fin (nth 0 ns 0%Q)) (Fin (nth i ns 0%Q))]).
    { destruct n; cbn [drawFrom]; [reflexivity |]. rewrite HL.
      destruct (Nat.ltb_spec (i + 2) (List.length ns)); [lia | reflexivity]. }
    rewrite Hstop. split.
    + constructor; [do 2 eexists; reflexivity | constructor].
    + rewrite (skipn_last ns i) by lia. unfold widthOf. simpl. ring.
  - destruct n as [| n]; [lia |]. cbn [drawFrom]. rewrite HL.
    destruct (Nat.ltb_spec i (List.length ns)); [| lia].
    rewrite drawFrom_snoc, snoc_nil. cbn [app].
    destruct (IH n (i + 2)) as [Hf Hs]; [lia | lia |].
    rewrite (segment_inner p ns pl Hnorm Hlen) by lia. split.
    + constructor; [do 2 eexists; reflexivity | exact Hf].
    + cbn [map Qsum].
      rewrite Hs, (skipn_two ns i) by lia. unfold widthOf. simpl. ring.
Qed.

End OddPasses.

(** X20.  In the tile branch a pattern of positive numbers of odd length is
    drawn [n] times the pattern and its first element over the budget wide,
    where [n] is the loop count: more than the even-length rule allows, but
    always less than two em. *)
Theorem tile_odd_below_two_em (qs : list Q) (w : Q) :
  3 <= List.length qs ->
  Nat.Odd (List.length qs) ->
  Forall (fun q => 0 < q)%Q qs ->
  ngt (loopCount (map Fin qs) (Fin w)) (Fin 1) = true ->
  exists n blocks t,
    loopCount (map Fin qs) (Fin w) = ofNat n /\ 1 < n
    /\ (forall fuel, n <= fuel -> dashBlocks fuel (Some (map Fin qs)) (Fin w) = Done blocks)
    /\ totalEm blocks = Fin t
    /\ (t * w == inject_Z (Z.of_nat n) * (Qsum qs + nth 0 qs 0))%Q
    /\ (t < 2)%Q.
Proof.
  intros Hlen [r Hr] Hpos Hgt.
  destruct (Qsum_positive qs Hpos) as [HS H0]; [lia |].
  destruct (period_Fin qs) as [d [Hd Ed]]; [lia |].
  assert (Hdpos : (0 < d)%Q) by lra.
  destruct (Qpos_not_zero d Hdpos) as [Hdz Hdnz].
  assert (Hloop : loopCount (map Fin qs) (Fin w) = Fin (inject_Z (Qfloor (Qred (w / d))))).
  { unfold loopCount. rewrite Hd. unfold ndiv. rewrite Hdz. reflexivity. }
  destruct (ngt_one_cases _ Hgt) as [Hinf | [n [Hn H1]]].
  { unfold loopCount in Hinf, Hloop. rewrite Hloop in Hinf. discriminate Hinf. }
  fold (loopCount (map Fin qs) (Fin w)) in Hn.
  assert (Hfloor : Qfloor (Qred (w / d)) = Z.of_nat n).
  { rewrite Hloop in Hn. unfold ofNat, ofZ in Hn. injection Hn as Hn. exact Hn. }
  assert (Hfit : (inject_Z (Z.of_nat n) * d <= w)%Q).
  { pose proof (Qfloor_le (Qred (w / d))) as Hle. rewrite Hfloor, Qred_correct in Hle.
    apply (Qmult_le_compat_r _ _ d) in Hle; [| lra].
    assert (E : (w / d * d == w)%Q) by (field; exact Hdnz).
    rewrite E in Hle. exact Hle. }
  assert (Hn2 : (2 <= inject_Z (Z.of_nat n))%Q).
  { change 2%Q with (inject_Z 2). rewrite <- Zle_Qle. lia. }
  assert (Hwpos : (0 < w)%Q) by nra.
  destruct (Qpos_not_zero w Hwpos) as [Hwz Hwnz].
  (* the first element is less than the sum of the others with it *)
  assert (Hfirst : (nth 0 qs 0 < Qsum qs)%Q).
  { destruct qs as [| q0 [| q1 rest]]; [simpl in Hlen; lia | simpl in Hlen; lia |].
    inversion Hpos as [| ? ? _ Hrest]; subst.
    destruct (Qsum_positive (q1 :: rest) Hrest) as [Hs _]; [simpl; lia |].
    cbn [nth Qsum] in *. lra. }
  set (ns := map (fun q => Qred (q / w)) qs).
  set (pl := Plan (loopCount (map Fin qs) (Fin w)) (map Fin ns) (List.length ns)).
  assert (Hplan : dashPlan (map Fin qs) (Fin w) = pl).
  { rewrite dashPlan_tile by exact Hgt. rewrite normalize_Fin by exact Hwz.
    subst pl ns. rewrite !length_map. reflexivity. }
  assert (Hns : List.length ns = List.length qs) by (subst ns; apply length_map).
  destruct (pass_tile_odd (map Fin qs) ns pl eq_refl ltac:(rewrite length_map; lia) r
              eq_refl (segmentLoop pl) 0) as [Hfin Hsum]; [simpl; lia | simpl; lia |].
  destruct (iter_pass (map Fin qs) pl n Hfin) as [Hfins Hsums].
  destruct (totalEm_finite _ Hfins) as [t [Ht Et]].
  exists n, (Nat.iter n (drawPattern snoc (map Fin qs) pl) []), t.
  split; [exact Hn |]. split; [exact H1 |]. split; [| split; [exact Ht |]].
  - intros fuel Hfuel. unfold dashBlocks.
    rewrite renderDash_dashed by (rewrite length_map; lia).
    rewrite Hplan.
    rewrite (repeatPattern_finite _ _ _ n) by (try lia; exact Hn).
    rewrite Nat.sub_0_r. reflexivity.
  - assert (Etotal : (t == inject_Z (Z.of_nat n) * ((Qsum qs + nth 0 qs 0) / w))%Q).
    { rewrite Et, Hsums. unfold drawPattern. rewrite Hsum. cbn [skipn]. subst ns.
      rewrite Qsum_normalized, first_normalized by (try exact Hwnz; lia).
      field. exact Hwnz. }
    split.
    + rewrite Etotal. field. exact Hwnz.
    + rewrite Etotal.
      assert (E : (inject_Z (Z.of_nat n) * ((Qsum qs + nth 0 qs 0) / w)
                   == inject_Z (Z.of_nat n) * (Qsum qs + nth 0 qs 0) / w)%Q)
        by (field; exact Hwnz).
      rewrite E. apply Qlt_shift_div_r; [exact Hwpos |].
      rewrite Ed in Hfit. nra.
Qed.

Lemma tile_odd_below_two_em_witness :
  3 <= List.length [10%Q; 1%Q; 1%Q]
  /\ Nat.Odd (List.length [10%Q; 1%Q; 1%Q])
  /\ Forall (fun q => 0 < q)%Q [10%Q; 1%Q; 1%Q]
  /\ ngt (loopCount (map Fin [10%Q; 1%Q; 1%Q]) (Fin 24)) (Fin 1) = true
  /\ exists n blocks t,
       loopCount (map Fin [10%Q; 1%Q; 1%Q]) (Fin 24) = ofNat n
       /\ (forall fuel, n <= fuel ->
             dashBlocks fuel (Some (map Fin [10%Q; 1%Q; 1%Q])) (Fin 24) = Done blocks)
       /\ totalEm blocks = Fin t
       /\ (t * 24 == inject_Z (Z.of_nat n) * (Qsum [10%Q; 1%Q; 1%Q] + 10))%Q
       /\ (t < 2)%Q.
Proof.
  assert (Hpos : Forall (fun q => 0 < q)%Q [10%Q; 1%Q; 1%Q]) by (repeat constructor).
  assert (Hodd : Nat.Odd (List.length [10%Q; 1%Q; 1%Q])) by (exists 1; reflexivity).
  split; [simpl; lia |]. split; [exact Hodd |]. split; [exact Hpos |].
  split; [reflexivity |].
  destruct (tile_odd_below_two_em [10%Q; 1%Q; 1%Q] 24) as [n [blocks [t H]]];
    [simpl; lia | exact Hodd | exact Hpos | reflexivity |].
  destruct H as [Hn [_ [Hb [Ht [Et Hlt]]]]].
  exists n, blocks, t. repeat split; assumption.
Defined.
